(** * SOAR dashboard: the API client, the three pages, and the engine contract

    The repository's source is a React front end: [services/api.js] (an axios
    client), the pages [Dashboard.jsx], [Alerts.jsx] and [Playbooks.jsx].
    The JavaScript they are written in is embedded shallowly: values of the
    JSON data the pages receive are a Rocq inductive type, property reads
    that can raise a TypeError return a completion, and [try]/[catch]/
    [finally] is a combinator on a small state-and-exception monad.

    The playbook execution engine the specification describes is served by
    the backend, which this front end only calls; its operations are
    modelled from the specification in [Module Engine]. *)

From stdpp Require Import base gmap list strings pretty.

#[local] Set Warnings "-register-all".

(** ** JavaScript values *)

Module JS.

(** A JavaScript string is a sequence of UTF-16 code units. *)
Definition jsstring : Type := list N.

(** A string literal of the source; every literal of the modelled files is
    ASCII, so a code unit is the character's code. *)
Definition lit (s : string) : jsstring :=
  Ascii.N_of_ascii <$> String.list_ascii_of_string s.
Global Arguments lit : simpl never.

(** The values a page can receive in a response body or hold in its state.
    [JNum z] is the integer-valued number [z] (ids and counts; fractions
    and NaN are outside the model, and so is an integer that is no safe
    integer, see [printable] below); an object is the list of its own
    properties.  The data comes from JSON: it holds no function, and every
    object has [Object.prototype] for its prototype. *)
Inductive JsVal : Type :=
| JUndefined
| JNull
| JBool (b : bool)
| JNum (z : Z)
| JStr (s : jsstring)
| JArr (items : list JsVal)
| JObj (fields : list (jsstring * JsVal)).

(** The outcome of running a piece of code: a value, or a thrown value (for
    an awaited promise: fulfilled or rejected). *)
Inductive completion (A : Type) : Type :=
| Normal (a : A)
| Throw (e : JsVal).
Arguments Normal {A} a.
Arguments Throw {A} e.

Definition TypeError (msg : string) : JsVal :=
  JObj [(lit "name", JStr (lit "TypeError")); (lit "message", JStr (lit msg))].

Fixpoint assoc (k : jsstring) (fields : list (jsstring * JsVal)) : option JsVal :=
  match fields with
  | [] => None
  | (k', v) :: rest => if decide (k = k') then Some v else assoc k rest
  end.

(** [v.k] for the property names the pages read (none of them is a
    property of a primitive's or an array's prototype): reading a property
    of [undefined] or [null] throws, an object yields its own property or
    [undefined], every other value yields [undefined]. *)
Definition get (v : JsVal) (k : string) : completion JsVal :=
  match v with
  | JUndefined | JNull => Throw (TypeError "Cannot read properties of undefined or null")
  | JObj fields => Normal (default JUndefined (assoc (lit k) fields))
  | _ => Normal JUndefined
  end.

(** [v?.k]: [undefined] when [v] is [undefined] or [null], else [v.k]. *)
Definition opt_get (v : JsVal) (k : string) : JsVal :=
  match v with
  | JUndefined | JNull => JUndefined
  | JObj fields => default JUndefined (assoc (lit k) fields)
  | _ => JUndefined
  end.

(** ToBoolean. *)
Definition truthy (v : JsVal) : bool :=
  match v with
  | JUndefined | JNull => false
  | JBool b => b
  | JNum z => negb (Z.eqb z 0)
  | JStr s => match s with [] => false | _ => true end
  | JArr _ | JObj _ => true
  end.

(** [a || b]. *)
Definition or_else (a b : JsVal) : JsVal := if truthy a then a else b.

(** The string a template literal prints for an interpolated value, when
    the value is printed at all; [printable] below tells for which values
    this is the string JavaScript gives. *)
Fixpoint ToString (v : JsVal) : jsstring :=
  match v with
  | JUndefined => lit "undefined"
  | JNull => lit "null"
  | JBool true => lit "true"
  | JBool false => lit "false"
  | JNum z => lit (pretty z)
  | JStr s => s
  | JArr items =>
      (fix join (l : list JsVal) : jsstring :=
         match l with
         | [] => []
         | x :: rest =>
             let sx := match x with
                       | JUndefined | JNull => []
                       | _ => ToString x
                       end in
             match rest with
             | [] => sx
             | _ => sx ++ lit "," ++ join rest
             end
         end) items
  | JObj _ => lit "[object Object]"
  end.

(** Conversion to a primitive, which a template literal, ['' + v] and
    [new Date(v)] apply to an object.  It calls [toString] or [valueOf],
    whichever is tried first and can be called, and takes the other when
    the first does not return a primitive.  [Object.prototype.valueOf]
    returns the object itself, so a plain object converts if and only if
    its [toString] can be called: an own property of that name holds data,
    which cannot, and the conversion throws a TypeError; without one,
    [Object.prototype.toString] answers.  An array converts through
    [join], which converts every element other than [undefined] and
    [null]. *)
Fixpoint coercible (v : JsVal) : bool :=
  match v with
  | JObj fields =>
      match assoc (lit "toString") fields with
      | Some _ => false
      | None => true
      end
  | JArr items => forallb coercible items
  | _ => true
  end.

(** The value is kept where the conversion goes through: the pages hand
    the converted value on to React or to [Date] and never read it. *)
Definition to_primitive (v : JsVal) : completion JsVal :=
  if coercible v then Normal v
  else Throw (TypeError "Cannot convert object to primitive value").

(** The values [ToString] prints as JavaScript does: the conversion does
    not throw, and every number in the value is a safe integer, which
    prints as its decimal digits (from 2^53 on a number prints the
    shortest digits that read back as the same double, and from 10^21 on
    with an exponent). *)
Fixpoint printable (v : JsVal) : bool :=
  match v with
  | JNum z => bool_decide (- 2 ^ 53 < z < 2 ^ 53)%Z
  | JObj fields =>
      match assoc (lit "toString") fields with
      | Some _ => false
      | None => true
      end
  | JArr items => forallb printable items
  | _ => true
  end.

(** *** String.prototype.toLowerCase and toUpperCase

    The two methods apply Unicode's case mappings, which the language
    fixes and no locale changes.  The tables below hold the mappings of
    Basic Latin (U+0000..U+007F) and of Latin-1 Supplement
    (U+0080..U+00FF), and five mappings from outside these blocks into
    them: U+0130 (to i and U+0307), U+212A (to k) and U+212B (to U+00E5) in
    lower case, U+0131 (to I) and U+017F (to S) in upper case.  The tables
    are a fragment: a code unit outside them is returned as it is here.
    The properties below rest on the Basic Latin rows and on the row of
    U+0131 only. *)
Definition lower_unit (c : N) : list N :=
  if decide (0x41 ≤ c ≤ 0x5A)%N then [c + 0x20]%N
  else if decide (0xC0 ≤ c ≤ 0xDE ∧ c ≠ 0xD7)%N then [c + 0x20]%N
  else if decide (c = 0x130)%N then [0x69; 0x307]%N
  else if decide (c = 0x212A)%N then [0x6B]%N
  else if decide (c = 0x212B)%N then [0xE5]%N
  else [c].

Definition upper_unit (c : N) : list N :=
  if decide (0x61 ≤ c ≤ 0x7A)%N then [c - 0x20]%N
  else if decide (c = 0xB5)%N then [0x39C]%N
  else if decide (c = 0xDF)%N then [0x53; 0x53]%N
  else if decide (0xE0 ≤ c ≤ 0xFE ∧ c ≠ 0xF7)%N then [c - 0x20]%N
  else if decide (c = 0xFF)%N then [0x178]%N
  else if decide (c = 0x131)%N then [0x49]%N
  else if decide (c = 0x17F)%N then [0x53]%N
  else [c].

Definition toLowerCase (s : jsstring) : jsstring := s ≫= lower_unit.
Definition toUpperCase (s : jsstring) : jsstring := s ≫= upper_unit.

(** A string of Basic Latin characters only. *)
Definition is_ascii (s : jsstring) : Prop := Forall (λ c, (c < 0x80)%N) s.

(** *** Effects

    An event handler of a page runs against a world: the console and the
    component's state.  It ends normally or by throwing. *)
Record World (S : Type) : Type := mkWorld {
  console : list (list JsVal);
  page : S;
}.
Arguments mkWorld {S} console page.
Arguments console {S} w.
Arguments page {S} w.

Definition M (S A : Type) : Type := World S → completion A * World S.

Global Instance M_ret {S} : MRet (M S) := λ A a w, (Normal a, w).
Global Instance M_bind {S} : MBind (M S) := λ A B k m w,
  match m w with
  | (Normal a, w') => k a w'
  | (Throw e, w') => (Throw e, w')
  end.

Definition throw {S A} (e : JsVal) : M S A := λ w, (Throw e, w).

(** A property read inside a handler. *)
Definition lift {S A} (c : completion A) : M S A := λ w, (c, w).

(** [console.error(a, b)] *)
Definition console_error {S} (args : list JsVal) : M S () :=
  λ w, (Normal (), mkWorld (console w ++ [args]) (page w)).

(** A state setter of [useState]. *)
Definition set_state {S} (f : S → S) : M S () :=
  λ w, (Normal (), mkWorld (console w) (f (page w))).

(** [try { body } catch (error) { handler } finally { fin }]; a statement
    without [finally] has [mret ()] for it. *)
Definition try_catch_finally {S A}
    (body : M S A) (handler : JsVal → M S A) (fin : M S ()) : M S A :=
  λ w,
    let '(r1, w1) := body w in
    let '(r2, w2) := match r1 with
                     | Normal a => (Normal a, w1)
                     | Throw e => handler e w1
                     end in
    let '(r3, w3) := fin w2 in
    match r3 with
    | Normal _ => (r2, w3)
    | Throw e => (Throw e, w3)
    end.

(** Sequencing of completions, for code that renders (no state). *)
Definition cbind {A B} (c : completion A) (k : A → completion B) : completion B :=
  match c with
  | Normal a => k a
  | Throw e => Throw e
  end.

(** [items.map(f)] where [f] can throw: the first throw ends the loop. *)
Fixpoint cmap {A B} (f : A → completion B) (l : list A) : completion (list B) :=
  match l with
  | [] => Normal []
  | x :: rest => cbind (f x) (λ y, cbind (cmap f rest) (λ ys, Normal (y :: ys)))
  end.

(** What React accepts as a child: a string, a number, a boolean, [null]
    or [undefined] (the last three draw nothing), and an array of such
    children, nested to any depth; a plain object is refused wherever it
    stands. *)
Fixpoint renderable (v : JsVal) : bool :=
  match v with
  | JObj _ => false
  | JArr items => forallb renderable items
  | _ => true
  end.

(** A value placed in JSX as a child, [{value}]. *)
Definition react_child (v : JsVal) : completion JsVal :=
  if renderable v then Normal v
  else Throw (TypeError "Objects are not valid as a React child").

(** [key={v}]: React keeps ['' + v] as the element's key, unless [v] is
    [undefined]. *)
Definition react_key (v : JsVal) : completion JsVal :=
  match v with
  | JUndefined => Normal JUndefined
  | _ => to_primitive v
  end.

(** [new Date(v)] with one argument: [v] is converted to a primitive,
    which is parsed if it is a string and taken as a time value
    otherwise; a date that is not valid is still a date, and its
    [toLocaleTimeString] and [toLocaleDateString] return a string. *)
Definition new_Date (v : JsVal) : completion JsVal := to_primitive v.

(** [s.startsWith(p)]: the first code units of [s] are those of [p]. *)
Fixpoint startsWith (s p : jsstring) : bool :=
  match p, s with
  | [], _ => true
  | _ :: _, [] => false
  | c :: p', d :: s' => (c =? d)%N && startsWith s' p'
  end.

End JS.

(** ** services/api.js *)

Module Api.
Import JS.

Inductive Method : Type := GET | POST | PUT.

(** What an axios instance is asked to send: the instance's defaults
    ([baseURL], [headers]) and the call's verb, url and config. *)
Record Request : Type := mkRequest {
  req_method : Method;
  req_baseURL : jsstring;
  req_url : jsstring;
  req_headers : list (jsstring * jsstring);
  req_params : JsVal;
  req_data : JsVal;
}.

(** [const api = axios.create({ baseURL: '/api/v1', headers: {...} })] *)
Definition baseURL : jsstring := lit "/api/v1".
Definition headers : list (jsstring * jsstring) :=
  [(lit "Content-Type", lit "application/json")].

(** [api.get(url, config)], [api.post(url, data)], [api.put(url, data)];
    an argument the call leaves out is [undefined]. *)
Definition api_get (url : jsstring) (params : JsVal) : Request :=
  mkRequest GET baseURL url headers params JUndefined.
Definition api_post (url : jsstring) (data : JsVal) : Request :=
  mkRequest POST baseURL url headers JUndefined data.
Definition api_put (url : jsstring) (data : JsVal) : Request :=
  mkRequest PUT baseURL url headers JUndefined data.

(** [export const alertService = { ... }]: the request of each call.  A
    call that takes an id prints it into the url with a template literal;
    its request here is the one sent once the id has printed, and [invoke]
    below is the call as it runs, conversion included. *)
Module alertService.
Definition getStats : Request := api_get (lit "/alerts/statistics") JUndefined.
Definition getAlerts (params : JsVal) : Request := api_get (lit "/alerts") params.
Definition getAlert (id : JsVal) : Request :=
  api_get (lit "/alerts/" ++ ToString id) JUndefined.
Definition createAlert (data : JsVal) : Request := api_post (lit "/alerts") data.
Definition updateAlert (id data : JsVal) : Request :=
  api_put (lit "/alerts/" ++ ToString id) data.

End alertService.

(** [export const playbookService = { ... }] *)
Module playbookService.
Definition getPlaybooks : Request := api_get (lit "/playbooks") JUndefined.
Definition getPlaybook (id : JsVal) : Request :=
  api_get (lit "/playbooks/" ++ ToString id) JUndefined.
Definition runPlaybook (id : JsVal) : Request :=
  api_post (lit "/playbooks/" ++ ToString id ++ lit "/execute") JUndefined.

End playbookService.

(** Every call the two exported services offer, with its arguments. *)
Inductive Call : Type :=
| CGetStats
| CGetAlerts (params : JsVal)
| CGetAlert (id : JsVal)
| CCreateAlert (data : JsVal)
| CUpdateAlert (id data : JsVal)
| CGetPlaybooks
| CGetPlaybook (id : JsVal)
| CRunPlaybook (id : JsVal).

Definition request_of (c : Call) : Request :=
  match c with
  | CGetStats => alertService.getStats
  | CGetAlerts params => alertService.getAlerts params
  | CGetAlert id => alertService.getAlert id
  | CCreateAlert data => alertService.createAlert data
  | CUpdateAlert id data => alertService.updateAlert id data
  | CGetPlaybooks => playbookService.getPlaybooks
  | CGetPlaybook id => playbookService.getPlaybook id
  | CRunPlaybook id => playbookService.runPlaybook id
  end.

(** The call as it runs: a template literal converts the id to a string
    before axios is reached, and a conversion that throws ends the call
    without a request. *)
Definition invoke (c : Call) : completion Request :=
  match c with
  | CGetAlert id | CUpdateAlert id _ | CGetPlaybook id | CRunPlaybook id =>
      cbind (to_primitive id) (λ _, Normal (request_of c))
  | _ => Normal (request_of c)
  end.

(** The verb and the url of a call: what the backend routes on. *)
Definition target (c : Call) : Method * jsstring :=
  (req_method (request_of c), req_url (request_of c)).

(** Every id the call carries is a number. *)
Definition numeric_ids (c : Call) : Prop :=
  match c with
  | CGetAlert id | CUpdateAlert id _ | CGetPlaybook id | CRunPlaybook id => ∃ n, id = JNum n
  | _ => True
  end.

(** The call without what it carries besides the id. *)
Definition without_payload (c : Call) : Call :=
  match c with
  | CGetAlerts _ => CGetAlerts JUndefined
  | CCreateAlert _ => CCreateAlert JUndefined
  | CUpdateAlert id _ => CUpdateAlert id JUndefined
  | _ => c
  end.

(** The request goes to [path] under the instance's base URL with verb [m]. *)
Definition sends (r : Request) (m : Method) (path : jsstring) : Prop :=
  req_method r = m ∧ req_baseURL r = lit "/api/v1" ∧ req_url r = path.

(** The response interceptor's error branch: the error is logged
    ([error.response || error.message]) and the promise rejects with it. *)
Definition on_rejected {S} (error : JsVal) : M S JsVal :=
  r ← lift (get error "response");
  v ← (if truthy r then mret r else lift (get error "message"));
  console_error [JStr (lit "API Error:"); v];;
  throw error.

(** [await] of a service call: the backend answers the request with a
    response or an error; a response passes the interceptor unchanged. *)
Definition await {S} (backend : Request → completion JsVal) (r : Request) : M S JsVal :=
  match backend r with
  | Normal response => mret response
  | Throw error => on_rejected error
  end.

End Api.

(** ** pages/Alerts.jsx *)

Module Alerts.
Import JS Api.

Record State : Type := mkState {
  alerts : JsVal;
  loading : bool;
}.

(** [useState([])], [useState(true)] *)
Definition initial : State := mkState (JArr []) true.

Definition setAlerts (v : JsVal) : M State () :=
  set_state (λ st, mkState v (loading st)).
Definition setLoading (b : bool) : M State () :=
  set_state (λ st, mkState (alerts st) b).

Definition mock_alert (id : Z) (title severity status source created_at : string) : JsVal :=
  JObj [(lit "id", JNum id); (lit "title", JStr (lit title));
        (lit "severity", JStr (lit severity)); (lit "status", JStr (lit status));
        (lit "source", JStr (lit source)); (lit "created_at", JStr (lit created_at))].

(** The array of the [catch] branch. *)
Definition mock_alerts : JsVal :=
  JArr [mock_alert 1 "Suspicious Login Attempt" "high" "open" "Auth Service" "2023-10-27T10:30:00Z";
        mock_alert 2 "Port Scan Detected" "medium" "investigating" "Firewall" "2023-10-27T09:15:00Z";
        mock_alert 3 "Malware Signature Match" "critical" "open" "EDR" "2023-10-27T08:45:00Z"].

Section Fetch.
Variable backend : Request → completion JsVal.

Definition fetchAlerts : M State () :=
  try_catch_finally
    (response ← await backend (alertService.getAlerts JUndefined);
     data ← lift (get response "data");
     found ← lift (get data "alerts");
     setAlerts (or_else found (JArr [])))
    (λ error,
       console_error [JStr (lit "Failed to fetch alerts"); error];;
       setAlerts mock_alerts)
    (setLoading false).
End Fetch.

Definition class_critical : jsstring := lit "text-danger bg-danger/10 border-danger/20".
Definition class_high : jsstring := lit "text-orange-400 bg-orange-400/10 border-orange-400/20".
Definition class_medium : jsstring := lit "text-warning bg-warning/10 border-warning/20".
Definition class_default : jsstring := lit "text-blue-400 bg-blue-400/10 border-blue-400/20".

(** The [switch] on the lower-cased string. *)
Definition severity_class (s : jsstring) : jsstring :=
  let l := toLowerCase s in
  if decide (l = lit "critical") then class_critical
  else if decide (l = lit "high") then class_high
  else if decide (l = lit "medium") then class_medium
  else class_default.

(** [severity.toLowerCase()] is called on whatever the argument is: only a
    string has the method. *)
Definition getSeverityColor (severity : JsVal) : completion jsstring :=
  match severity with
  | JStr s => Normal (severity_class s)
  | JUndefined | JNull => Throw (TypeError "Cannot read properties of undefined or null")
  | _ => Throw (TypeError "severity.toLowerCase is not a function")
  end.

(** One [<tr>] of the table.  The time cell shows
    [new Date(alert.created_at).toLocaleTimeString()], which depends on the
    browser's locale and zone: the row keeps the value handed to [Date].
    [row_key] is the value given as the key. *)
Record Row : Type := mkRow {
  row_key : JsVal;
  row_class : jsstring;
  row_severity : JsVal;
  row_title : JsVal;
  row_source : JsVal;
  row_status : JsVal;
  row_created_at : JsVal;
}.

(** The expressions of the row are evaluated while its elements are
    created, the key is converted when the [<tr>] element is, and React
    checks the children when it draws the elements. *)
Definition render_row (alert : JsVal) : completion Row :=
  cbind (get alert "id") (λ id,
  cbind (get alert "severity") (λ severity,
  cbind (getSeverityColor severity) (λ cls,
  cbind (get alert "title") (λ title,
  cbind (get alert "source") (λ source,
  cbind (get alert "status") (λ status,
  cbind (get alert "created_at") (λ created_at,
  cbind (new_Date created_at) (λ time,
  cbind (react_key id) (λ key,
  cbind (react_child severity) (λ severity_cell,
  cbind (react_child title) (λ title_cell,
  cbind (react_child source) (λ source_cell,
  cbind (react_child status) (λ status_cell,
  Normal (mkRow key cls severity_cell title_cell source_cell status_cell time)))))))))))))).

(** [alerts.map((alert) => <tr>...</tr>)]: the rows of the table body. *)
Definition render (st : State) : completion (list Row) :=
  match alerts st with
  | JArr items => cmap render_row items
  | JUndefined | JNull => Throw (TypeError "Cannot read properties of undefined or null")
  | _ => Throw (TypeError "alerts.map is not a function")
  end.

(** An alert the table can show: an object whose [severity] is a string,
    whose [id] and [created_at] convert to a primitive and whose other
    cells are values React draws. *)
Definition showable (alert : JsVal) : Prop :=
  ∃ fields s,
    alert = JObj fields ∧ get alert "severity" = Normal (JStr s) ∧
    coercible (opt_get alert "id") = true ∧
    coercible (opt_get alert "created_at") = true ∧
    (∀ k, k ∈ ["title"; "source"; "status"] → renderable (opt_get alert k) = true).

(** What the [try] of [fetchAlerts] reads at [response.data.alerts], when
    the request and both reads go through. *)
Definition body_alerts (backend : Request → completion JsVal) : option JsVal :=
  match backend (alertService.getAlerts JUndefined) with
  | Normal response =>
      match get response "data" with
      | Normal data =>
          match get data "alerts" with
          | Normal found => Some found
          | Throw _ => None
          end
      | Throw _ => None
      end
  | Throw _ => None
  end.

(** The row a showable alert gives. *)
Definition row_of (alert : JsVal) : Row :=
  mkRow (opt_get alert "id")
    (match opt_get alert "severity" with
     | JStr s => severity_class s
     | _ => class_default
     end)
    (opt_get alert "severity") (opt_get alert "title") (opt_get alert "source")
    (opt_get alert "status") (opt_get alert "created_at").

End Alerts.

(** ** pages/Dashboard.jsx *)

Module Dashboard.
Import JS Api.

Record State : Type := mkState {
  stats : JsVal;
  loading : bool;
}.

(** [useState(null)], [useState(true)] *)
Definition initial : State := mkState JNull true.

Definition setStats (v : JsVal) : M State () :=
  set_state (λ st, mkState v (loading st)).
Definition setLoading (b : bool) : M State () :=
  set_state (λ st, mkState (stats st) b).

(** The object of the [catch] branch. *)
Definition fallback_stats : JsVal :=
  JObj [(lit "total_alerts", JNum 124);
        (lit "by_severity",
           JObj [(lit "critical", JNum 12); (lit "high", JNum 28);
                 (lit "medium", JNum 45); (lit "low", JNum 39)]);
        (lit "by_status",
           JObj [(lit "open", JNum 42); (lit "investigating", JNum 15);
                 (lit "resolved", JNum 67)]);
        (lit "active_incidents", JNum 3)].

Section Fetch.
Variable backend : Request → completion JsVal.

Definition fetchStats : M State () :=
  try_catch_finally
    (response ← await backend alertService.getStats;
     data ← lift (get response "data");
     setStats data)
    (λ error,
       console_error [JStr (lit "Failed to fetch stats"); error];;
       setStats fallback_stats)
    (setLoading false).
End Fetch.

(** The [value] props of the four [StatCard]s. *)
Definition total_alerts_value (stats : JsVal) : JsVal :=
  or_else (opt_get stats "total_alerts") (JNum 0).
Definition critical_value (stats : JsVal) : JsVal :=
  or_else (opt_get (opt_get stats "by_severity") "critical") (JNum 0).
Definition active_incidents_value (stats : JsVal) : JsVal :=
  or_else (opt_get stats "active_incidents") (JNum 0).
Definition resolved_value (stats : JsVal) : JsVal :=
  or_else (opt_get (opt_get stats "by_status") "resolved") (JNum 0).

Record Metrics : Type := mkMetrics {
  card_total : JsVal;
  card_critical : JsVal;
  card_active : JsVal;
  card_resolved : JsVal;
}.

Inductive View : Type :=
| LoadingMetrics
| KeyMetrics (m : Metrics).

(** [if (loading) return <div>Loading metrics...</div>; return (...)] *)
Definition render (st : State) : completion View :=
  if loading st then Normal LoadingMetrics
  else
    cbind (react_child (total_alerts_value (stats st))) (λ total,
    cbind (react_child (critical_value (stats st))) (λ critical,
    cbind (react_child (active_incidents_value (stats st))) (λ active,
    cbind (react_child (resolved_value (stats st))) (λ resolved,
    Normal (KeyMetrics (mkMetrics total critical active resolved)))))).

(** The four values, in the order of the cards. *)
Definition card_values (stats : JsVal) : list JsVal :=
  [total_alerts_value stats; critical_value stats;
   active_incidents_value stats; resolved_value stats].

(** What the [try] of [fetchStats] reads at [response.data], when the
    request and the read go through. *)
Definition body_stats (backend : Request → completion JsVal) : option JsVal :=
  match backend alertService.getStats with
  | Normal response =>
      match get response "data" with
      | Normal data => Some data
      | Throw _ => None
      end
  | Throw _ => None
  end.

End Dashboard.

(** ** pages/Playbooks.jsx *)

Module Playbooks.
Import JS Api.

Record State : Type := mkState {
  playbooks : JsVal;
  loading : bool;
  selectedPlaybook : JsVal;
  alerted : list jsstring;
}.

(** [useState([])], [useState(true)], [useState(null)]; no [alert()] box
    has been shown. *)
Definition initial : State := mkState (JArr []) true JNull [].

Definition setPlaybooks (v : JsVal) : M State () :=
  set_state (λ st, mkState v (loading st) (selectedPlaybook st) (alerted st)).
Definition setLoading (b : bool) : M State () :=
  set_state (λ st, mkState (playbooks st) b (selectedPlaybook st) (alerted st)).
(** [alert(msg)] *)
Definition window_alert (msg : jsstring) : M State () :=
  set_state (λ st, mkState (playbooks st) (loading st) (selectedPlaybook st) (alerted st ++ [msg])).

Section Fetch.
Variable backend : Request → completion JsVal.

Definition fetchPlaybooks : M State () :=
  try_catch_finally
    (response ← await backend playbookService.getPlaybooks;
     data ← lift (get response "data");
     found ← lift (get data "playbooks");
     setPlaybooks (or_else found (JArr [])))
    (λ error, console_error [JStr (lit "Failed to fetch playbooks"); error])
    (setLoading false).

(** [handleRunPlaybook(e, id)], after [e.stopPropagation()]. *)
Definition handleRunPlaybook (id : JsVal) : M State () :=
  try_catch_finally
    (request ← lift (invoke (CRunPlaybook id));
     await backend request;;
     window_alert (lit "Playbook execution started"))
    (λ error,
       console_error [JStr (lit "Failed to run playbook"); error];;
       window_alert (lit "Failed to start playbook"))
    (mret ()).
End Fetch.

(** One card of the grid.  [card_key] is the value given as the key;
    [card_last_run] is [None] where the card says 'Never', else the value
    handed to [Date]. *)
Record CardView : Type := mkCard {
  card_key : JsVal;
  card_active : bool;
  card_name : JsVal;
  card_description : JsVal;
  card_last_run : option JsVal;
}.

(** As for a row of the Alerts table: the expressions first, the key
    when the [<Card>] element is created, the children when React draws. *)
Definition render_card (playbook : JsVal) : completion CardView :=
  cbind (get playbook "id") (λ id,
  cbind (get playbook "active") (λ active,
  cbind (get playbook "name") (λ name,
  cbind (get playbook "description") (λ description,
  cbind (get playbook "last_executed_at") (λ last,
  cbind (if truthy last
         then cbind (new_Date last) (λ date, Normal (Some date))
         else Normal None) (λ last_run,
  cbind (react_key id) (λ key,
  cbind (react_child name) (λ name_cell,
  cbind (react_child description) (λ description_cell,
  Normal (mkCard key (truthy active) name_cell description_cell last_run)))))))))).

(** [playbooks.map((playbook) => <Card>...</Card>)]: the cards of the
    grid.  The details overlay is drawn only once a card has been clicked
    ([selectedPlaybook] is [null] until then) and is not part of the grid. *)
Definition render_grid (st : State) : completion (list CardView) :=
  match playbooks st with
  | JArr items => cmap render_card items
  | JUndefined | JNull => Throw (TypeError "Cannot read properties of undefined or null")
  | _ => Throw (TypeError "playbooks.map is not a function")
  end.

(** [onClick={() => setSelectedPlaybook(playbook)}] of a card and
    [onClick={() => setSelectedPlaybook(null)}] of the overlay and of its
    close buttons. *)
Definition setSelectedPlaybook (v : JsVal) : M State () :=
  set_state (λ st, mkState (playbooks st) (loading st) v (alerted st)).

(** One entry of 'Execution Steps'; React's key is the position. *)
Record StepView : Type := mkStepView {
  view_order : JsVal;
  view_action : JsVal;
  view_description : JsVal;
}.

Record Details : Type := mkDetails {
  details_name : JsVal;
  details_description : JsVal;
  details_trigger : JsVal;
  details_steps : list StepView;
}.

Definition render_step (step : JsVal) : completion StepView :=
  cbind (get step "order") (λ order,
  cbind (react_child order) (λ order_cell,
  cbind (get step "action") (λ action,
  cbind (react_child action) (λ action_cell,
  cbind (get step "description") (λ description,
  cbind (react_child description) (λ description_cell,
  Normal (mkStepView order_cell action_cell description_cell))))))).

(** The card inside the overlay, for a selected playbook. *)
Definition render_details (selected : JsVal) : completion Details :=
  cbind (get selected "name") (λ name,
  cbind (react_child name) (λ name_cell,
  cbind (get selected "description") (λ description,
  cbind (react_child description) (λ description_cell,
  cbind (get selected "trigger_condition") (λ trigger,
  cbind (react_child (or_else trigger (JStr (lit "Manual Trigger Only")))) (λ trigger_cell,
  cbind (get selected "steps") (λ steps,
  cbind (match steps with
         | JArr items => cmap render_step items
         | JUndefined | JNull =>
             Throw (TypeError "Cannot read properties of undefined or null")
         | _ => Throw (TypeError "selectedPlaybook.steps.map is not a function")
         end) (λ step_views,
  Normal (mkDetails name_cell description_cell trigger_cell step_views))))))))).

(** [{selectedPlaybook && (...)}]: the overlay when the state is truthy,
    else the state's value itself as the child. *)
Inductive Overlay : Type :=
| NoOverlay (child : JsVal)
| DetailsOverlay (d : Details).

Definition render_overlay (st : State) : completion Overlay :=
  if truthy (selectedPlaybook st)
  then cbind (render_details (selectedPlaybook st)) (λ d, Normal (DetailsOverlay d))
  else Normal (NoOverlay (selectedPlaybook st)).

(** The page: the grid, then the overlay. *)
Definition render (st : State) : completion (list CardView * Overlay) :=
  cbind (render_grid st) (λ cards,
  cbind (render_overlay st) (λ overlay,
  Normal (cards, overlay))).

(** A playbook a card can show: not [null] or [undefined], its [id] and
    [last_executed_at] convert to a primitive, and its name and
    description are values React draws. *)
Definition showable (playbook : JsVal) : Prop :=
  playbook ≠ JUndefined ∧ playbook ≠ JNull ∧
  coercible (opt_get playbook "id") = true ∧
  coercible (opt_get playbook "last_executed_at") = true ∧
  (∀ k, k ∈ ["name"; "description"] → renderable (opt_get playbook k) = true).

(** What the [try] of [fetchPlaybooks] reads at [response.data.playbooks],
    when the request and both reads go through. *)
Definition body_playbooks (backend : Request → completion JsVal) : option JsVal :=
  match backend playbookService.getPlaybooks with
  | Normal response =>
      match get response "data" with
      | Normal data =>
          match get data "playbooks" with
          | Normal found => Some found
          | Throw _ => None
          end
      | Throw _ => None
      end
  | Throw _ => None
  end.

(** The card a showable playbook gives. *)
Definition card_of (playbook : JsVal) : CardView :=
  mkCard (opt_get playbook "id") (truthy (opt_get playbook "active"))
    (opt_get playbook "name") (opt_get playbook "description")
    (if truthy (opt_get playbook "last_executed_at")
     then Some (opt_get playbook "last_executed_at") else None).

End Playbooks.

(** ** layouts/MainLayout.jsx *)

Module MainLayout.
Import JS.

(** What a [SidebarItem] draws: the link's target, class and title, and the
    label's [<span>] when there is one. *)
Record ItemView : Type := mkItemView {
  item_to : jsstring;
  item_active : bool;
  item_class : jsstring;
  item_title : jsstring;
  item_text : option jsstring;
}.

Definition SidebarItem (label to : jsstring) (active collapsed : bool) : ItemView :=
  mkItemView to active
    (lit "flex items-center gap-3 px-4 py-3 rounded-lg transition-colors "
     ++ (if active
         then lit "bg-white/10 text-white border-l-2 border-accent"
         else lit "text-secondary hover:text-white hover:bg-white/5")
     ++ lit " " ++ (if collapsed then lit "justify-center px-2" else lit ""))
    (if collapsed then label else lit "")
    (if negb collapsed then Some label else None).

(** The four items of the [<nav>], for [location.pathname] and the
    [collapsed] state. *)
Definition nav (pathname : jsstring) (collapsed : bool) : list ItemView :=
  [SidebarItem (lit "Dashboard") (lit "/") (bool_decide (pathname = lit "/")) collapsed;
   SidebarItem (lit "Alerts") (lit "/alerts") (startsWith pathname (lit "/alerts")) collapsed;
   SidebarItem (lit "Playbooks") (lit "/playbooks")
     (startsWith pathname (lit "/playbooks")) collapsed;
   SidebarItem (lit "Settings") (lit "/settings")
     (startsWith pathname (lit "/settings")) collapsed].

(** The targets of the items that are drawn active. *)
Definition active_targets (pathname : jsstring) (collapsed : bool) : list jsstring :=
  item_to <$> filter (λ i, item_active i = true) (nav pathname collapsed).

(** The label as the user can reach it: the text, or the title (tooltip)
    when the sidebar is collapsed. *)
Definition reachable_label (i : ItemView) : jsstring :=
  default (item_title i) (item_text i).

End MainLayout.

(** ** The playbook execution engine (backend)

    The front end reaches the engine through [POST /playbooks/{id}/execute]
    and the alert endpoints only; the engine's code is on the backend.
    Every definition of this module is modelled from the specification's
    sections 3 to 5.  Steps, admissions and cancel requests are the atomic
    events of the model: a cancel request therefore always falls between
    two steps, as the cooperative cancellation of section 4.2 demands. *)

Module Engine.

(** Modelled from the spec: the severity enum of section 3 (the backend's
    model classes are missing). *)
Inductive Severity : Type := Low | Medium | High | Critical.

(** Modelled from the spec: the status enum of section 3 (open,
    investigating, resolved). *)
Inductive Status : Type := Open | Investigating | Resolved.

(** Modelled from the spec: the scalars of the "free-form attribute map
    (key→scalar)" of section 3. *)
Inductive Scalar : Type := SStr (s : string) | SNum (z : Z) | SBool (b : bool).

Global Instance Severity_eq_dec : EqDecision Severity.
Proof. solve_decision. Defined.
Global Instance Status_eq_dec : EqDecision Status.
Proof. solve_decision. Defined.
Global Instance Scalar_eq_dec : EqDecision Scalar.
Proof. solve_decision. Defined.

(** Modelled from the spec: the total order low < medium < high < critical
    of section 4.1. *)
Definition severity_rank (s : Severity) : nat :=
  match s with Low => 0 | Medium => 1 | High => 2 | Critical => 3 end.

(** Modelled from the spec: the name of a severity as an alert field
    carries it (and as the front end prints it). *)
Definition severity_name (s : Severity) : string :=
  match s with
  | Low => "low" | Medium => "medium" | High => "high" | Critical => "critical"
  end.

(** Modelled from the spec: the name of a status, likewise. *)
Definition status_name (s : Status) : string :=
  match s with
  | Open => "open" | Investigating => "investigating" | Resolved => "resolved"
  end.

(** Modelled from the spec: "identity (opaque id), title, severity, status,
    source (string tag), created_at, updated_at, free-form attribute map"
    (section 3). *)
Record Alert : Type := mkAlert {
  alert_id : N;
  alert_title : string;
  alert_severity : Severity;
  alert_status : Status;
  alert_source : string;
  alert_created_at : N;
  alert_updated_at : N;
  alert_attributes : gmap string Scalar;
}.

(** Modelled from the spec: the TriggerCondition of sections 3 and 9, a
    closed tree of predicates (equals, in-set, gte/lte on severity) under
    and/or/not; the backend's evaluator is missing. *)
Inductive Field : Type :=
| FTitle | FSeverity | FStatus | FSource
| FAttribute (key : string).

(** Modelled from the spec: "predicates: equals, in-set, gte/lte for
    severity" (section 3). *)
Inductive Predicate : Type :=
| Equals (f : Field) (v : Scalar)
| InSet (f : Field) (vs : list Scalar)
| SeverityGte (s : Severity)
| SeverityLte (s : Severity).

(** Modelled from the spec: "a closed tagged-variant AST (Predicate | And
    | Or | Not)" (section 9). *)
Inductive TriggerCondition : Type :=
| Pred (p : Predicate)
| And (a b : TriggerCondition)
| Or (a b : TriggerCondition)
| Not (a : TriggerCondition).

(** Modelled from the spec: a reference to an attribute the alert does not
    carry has no value (section 4.1); the evaluator's field access is
    missing. *)
Definition field_value (alert : Alert) (f : Field) : option Scalar :=
  match f with
  | FTitle => Some (SStr (alert_title alert))
  | FSeverity => Some (SStr (severity_name (alert_severity alert)))
  | FStatus => Some (SStr (status_name (alert_status alert)))
  | FSource => Some (SStr (alert_source alert))
  | FAttribute key => alert_attributes alert !! key
  end.

(** Modelled from the spec: one predicate of section 4.1; an unknown
    attribute makes the predicate not satisfied, it never raises. *)
Definition satisfied (alert : Alert) (p : Predicate) : bool :=
  match p with
  | Equals f v =>
      match field_value alert f with
      | Some x => bool_decide (x = v)
      | None => false
      end
  | InSet f vs =>
      match field_value alert f with
      | Some x => bool_decide (x ∈ vs)
      | None => false
      end
  | SeverityGte s => bool_decide (severity_rank s ≤ severity_rank (alert_severity alert))
  | SeverityLte s => bool_decide (severity_rank (alert_severity alert) ≤ severity_rank s)
  end.

(** Modelled from the spec: [evaluate(alert, condition) -> bool] of
    section 4.1, by recursive interpretation of the tree (section 9); the
    backend's Trigger Evaluator is missing. *)
Fixpoint evaluate (alert : Alert) (condition : TriggerCondition) : bool :=
  match condition with
  | Pred p => satisfied alert p
  | And a b => evaluate alert a && evaluate alert b
  | Or a b => evaluate alert a || evaluate alert b
  | Not a => negb (evaluate alert a)
  end.

(** Modelled from the spec: Step and Playbook of section 3 (the backend's
    model classes are missing). *)
Inductive ActionKind : Type :=
| Notify | Tag | BlockIp | QuarantineHost | Escalate | RunScript | Wait.

(** Modelled from the spec: "action kind, parameter map, optional per-step
    timeout and retry count (default 0)" (section 3). *)
Record Step : Type := mkStep {
  step_order : nat;
  step_action : ActionKind;
  step_params : gmap string Scalar;
  step_timeout : option N;
  step_retry : nat;
}.

(** Modelled from the spec: "identity, name, enabled flag, trigger
    condition, ordered sequence of Steps" (section 3); the identity is the
    key under which the playbook is saved. *)
Record Playbook : Type := mkPlaybook {
  pb_name : string;
  pb_enabled : bool;
  pb_trigger : TriggerCondition;
  pb_steps : list Step;
}.

(** Modelled from the spec: "ordered sequence of Steps (1..N, each with a
    fixed order index, unique within the playbook)"; the check made when a
    playbook is saved is missing. *)
Definition well_formed (pb : Playbook) : Prop :=
  step_order <$> pb_steps pb = seq 1 (length (pb_steps pb)).

(** Modelled from the spec: ExecutionRun and StepResult of section 3 (the
    Run Store's records are missing).  The run's identity is its key in
    the store; timestamps and durations are real time and left out. *)
Inductive RunState : Type := Pending | Running | Completed | Failed | Cancelled.

(** Modelled from the spec: the outcomes Success, Failed, Skipped, TimedOut
    of a StepResult (section 3). *)
Inductive Outcome : Type := Success | StepFailed | Skipped | TimedOut.

Global Instance RunState_eq_dec : EqDecision RunState.
Proof. solve_decision. Defined.
Global Instance Outcome_eq_dec : EqDecision Outcome.
Proof. solve_decision. Defined.

(** Modelled from the spec: "step index, outcome, attempt count, error
    detail (present iff outcome ≠ Success)" (section 3). *)
Record StepResult : Type := mkStepResult {
  sr_index : nat;
  sr_outcome : Outcome;
  sr_attempts : nat;
  sr_error : option string;
}.

(** Modelled from the spec: "playbook id, alert id, state, ordered list of
    StepResults" (section 3). *)
Record ExecutionRun : Type := mkRun {
  run_playbook : N;
  run_alert : N;
  run_state : RunState;
  run_results : list StepResult;
}.

(** Modelled from the spec: "active" is Pending or Running (section 5). *)
Definition active (r : ExecutionRun) : bool :=
  match run_state r with
  | Pending | Running => true
  | Completed | Failed | Cancelled => false
  end.

(** Modelled from the spec: an active run of the pair (playbook, alert). *)
Definition active_for (p a : N) (r : ExecutionRun) : Prop :=
  run_playbook r = p ∧ run_alert r = a ∧ active r = true.

Global Instance active_for_dec p a r : Decision (active_for p a r).
Proof. unfold active_for. apply _. Defined.

(** Modelled from the spec: the engine's state, the saved playbooks and the
    Run Store (a key-indexed record store, section 1); both stores are
    missing. *)
Record Engine : Type := mkEngine {
  playbooks : gmap N Playbook;
  runs : gmap N ExecutionRun;
}.

(** Modelled from the spec: the engine at start-up, no run yet. *)
Definition init (pbs : gmap N Playbook) : Engine := mkEngine pbs ∅.

(** Modelled from the spec: NotFound of the taxonomy of section 7, the one
    error these operations return. *)
Inductive Error : Type := NotFound.

(** Modelled from the spec: the admission policy of section 5; the
    backend's run admission is missing.  A request for a pair that has an
    active run is coalesced: the store is left as it is.  Otherwise a
    Pending run is created under a fresh id. *)
Definition request_run (p a : N) (e : Engine) : Engine :=
  if decide (map_Exists (λ _ r, active_for p a r) (runs e)) then e
  else mkEngine (playbooks e)
         (<[fresh (dom (runs e)) := mkRun p a Pending []]> (runs e)).

(** Modelled from the spec: [POST /playbooks/{id}/execute], "manual run
    admission, bypassing Trigger Evaluator but subject to the same
    admission/concurrency rule"; an unknown playbook is NotFound
    (section 7).  The backend's route handler is missing. *)
Definition execute (p a : N) (e : Engine) : Error + Engine :=
  match playbooks e !! p with
  | None => inl NotFound
  | Some _ => inr (request_run p a e)
  end.

(** Modelled from the spec: on ingestion or update of an alert every
    enabled playbook's condition is evaluated, and all matches are
    identified before any run is started (section 4.1); the backend's
    ingestion pipeline is missing. *)
Definition matching (alert : Alert) (e : Engine) : list N :=
  (map_to_list
     (filter (λ kv, pb_enabled kv.2 = true ∧ evaluate alert (pb_trigger kv.2) = true)
        (playbooks e))).*1.

(** Modelled from the spec: each match is a request for a run of the pair
    (matching playbook, ingested alert), under the admission policy. *)
Definition ingest (alert : Alert) (e : Engine) : Engine :=
  foldr (λ p acc, request_run p (alert_id alert) acc) e (matching alert e).

(** Modelled from the spec: Pending becomes Running at admission
    (section 4.2). *)
Definition start_run (r : ExecutionRun) : ExecutionRun :=
  match run_state r with
  | Pending => mkRun (run_playbook r) (run_alert r) Running (run_results r)
  | _ => r
  end.

(** Modelled from the spec: what a handler reports for one attempt
    (section 4.3): success, a failure with its detail, or a timeout.  The
    registered handlers are missing; an event supplies their answers. *)
Inductive Attempt : Type :=
| AttemptOk
| AttemptFailed (detail : string)
| AttemptTimedOut.

(** Modelled from the spec: the retry policy of section 4.2.  Attempt
    number [n] is made; a failure or timeout is retried while the budget
    lasts, and the last attempt's outcome is the step's.  The result is
    the outcome, the number of attempts made and the error detail. *)
Fixpoint attempts (exec : nat → Attempt) (budget n : nat) : Outcome * nat * option string :=
  match exec n with
  | AttemptOk => (Success, S n, None)
  | AttemptFailed detail =>
      match budget with
      | 0 => (StepFailed, S n, Some detail)
      | S budget' => attempts exec budget' (S n)
      end
  | AttemptTimedOut =>
      match budget with
      | 0 => (TimedOut, S n, Some "timed out")
      | S budget' => attempts exec budget' (S n)
      end
  end.

(** Modelled from the spec: [execute(step, alertSnapshot, attemptNumber)]
    under the retry policy, as one StepResult (section 4.3). *)
Definition execute_step (exec : nat → Attempt) (s : Step) : StepResult :=
  let '(outcome, made, detail) := attempts exec (step_retry s) 0 in
  mkStepResult (step_order s) outcome made detail.

(** Modelled from the spec: one step of a Running run (section 4.2).  The
    next step in ascending order is the one after the results so far; its
    failure after the retry budget makes the run Failed and halts it, the
    success of the last step makes it Completed.  The backend's execution
    loop is missing. *)
Definition advance (steps : list Step) (exec : nat → Attempt) (r : ExecutionRun) : ExecutionRun :=
  match run_state r with
  | Running =>
      match steps !! length (run_results r) with
      | None => mkRun (run_playbook r) (run_alert r) Completed (run_results r)
      | Some s =>
          let result := execute_step exec s in
          let results := run_results r ++ [result] in
          mkRun (run_playbook r) (run_alert r)
            (if decide (sr_outcome result = Success)
             then (if decide (length results = length steps) then Completed else Running)
             else Failed)
            results
      end
  | _ => r
  end.

(** Modelled from the spec: the result of a step that cancellation left
    unexecuted; Skipped is not Success, so it carries a detail. *)
Definition skipped (s : Step) : StepResult :=
  mkStepResult (step_order s) Skipped 0 (Some "cancelled").

(** Modelled from the spec: cancellation (sections 4.2 and 5).  An active
    run becomes Cancelled and each step without a result is marked
    Skipped; a run in a terminal state is left as it is. *)
Definition cancel_run (steps : list Step) (r : ExecutionRun) : ExecutionRun :=
  if active r
  then mkRun (run_playbook r) (run_alert r) Cancelled
         (run_results r ++ (skipped <$> drop (length (run_results r)) steps))
  else r.

(** Modelled from the spec: the step sequence of the playbook a run
    executes. *)
Definition steps_of (e : Engine) (r : ExecutionRun) : list Step :=
  match playbooks e !! run_playbook r with
  | Some pb => pb_steps pb
  | None => []
  end.

(** Modelled from the spec: a cancel request names one run id; an unknown
    id is NotFound, a terminal run is a no-op and not an error. *)
Definition cancel (rid : N) (e : Engine) : Error + Engine :=
  match runs e !! rid with
  | None => inl NotFound
  | Some r => inr (mkEngine (playbooks e) (<[rid := cancel_run (steps_of e r) r]> (runs e)))
  end.

(** Modelled from the spec: the requests and internal moves the engine
    serves, one at a time per store update. *)
Inductive Event : Type :=
| Ingest (alert : Alert)
| Execute (p a : N)
| Start (rid : N)
| StepDone (rid : N) (exec : nat → Attempt)
| Cancel (rid : N).

(** Modelled from the spec: an update of one run in the Run Store; an
    unknown id changes nothing. *)
Definition on_run (rid : N) (f : ExecutionRun → ExecutionRun) (e : Engine) : Engine :=
  match runs e !! rid with
  | None => e
  | Some r => mkEngine (playbooks e) (<[rid := f r]> (runs e))
  end.

(** Modelled from the spec: the engine serving one event; a request that
    is answered with an error leaves the state as it was. *)
Definition step (e : Engine) (ev : Event) : Engine :=
  match ev with
  | Ingest alert => ingest alert e
  | Execute p a => match execute p a e with inr e' => e' | inl _ => e end
  | Start rid => on_run rid start_run e
  | StepDone rid exec => on_run rid (λ r, advance (steps_of e r) exec r) e
  | Cancel rid => match cancel rid e with inr e' => e' | inl _ => e end
  end.

(** Modelled from the spec: the engine after a history of events, oldest
    first. *)
Definition run_events (pbs : gmap N Playbook) (evs : list Event) : Engine :=
  foldl step (init pbs) evs.

(** Modelled from the spec: the admission invariant of sections 5 and 8. *)
Definition one_active_run_per_pair (e : Engine) : Prop :=
  ∀ i j ri rj,
    runs e !! i = Some ri → runs e !! j = Some rj →
    active ri = true → active rj = true →
    run_playbook ri = run_playbook rj → run_alert ri = run_alert rj →
    i = j.

(** Modelled from the spec: a move of one run inside the state machine
    Pending → Running → {Completed, Failed, Cancelled} keeps its pair and
    never makes an inactive run active. *)
Definition settles (f : ExecutionRun → ExecutionRun) : Prop :=
  ∀ r, run_playbook (f r) = run_playbook r ∧ run_alert (f r) = run_alert r ∧
       (active (f r) = true → active r = true).

(** Modelled from the spec: "a run's StepResults are always a prefix of
    the playbook's step sequence in index order" (section 8), for one run. *)
Definition in_order (steps : list Step) (r : ExecutionRun) : Prop :=
  (sr_index <$> run_results r) `prefix_of` (step_order <$> steps).

(** Modelled from the spec: the same for every run of the store. *)
Definition results_in_order (e : Engine) : Prop :=
  ∀ rid r, runs e !! rid = Some r → in_order (steps_of e r) r.

(** Modelled from the spec: the StatSnapshot of sections 3 and 4.5, by
    full recount from the alert set; the backend's Statistics Aggregator
    is missing. *)
Record StatSnapshot : Type := mkSnapshot {
  total_alerts : nat;
  by_severity : Severity → nat;
  by_status : Status → nat;
  active_incidents : nat;
}.

(** Modelled from the spec: "reconstructable by full recount from the Alert
    store" (section 4.5); active incidents are the "alerts with status ≠
    resolved" (section 3). *)
Definition recount (alerts : list Alert) : StatSnapshot :=
  mkSnapshot
    (length alerts)
    (λ s, length (filter (λ a, alert_severity a = s) alerts))
    (λ s, length (filter (λ a, alert_status a = s) alerts))
    (length (filter (λ a, alert_status a ≠ Resolved) alerts)).

(** Modelled from the spec: the body of [GET /alerts/statistics]; the
    backend's serializer is missing.  The property names are the ones
    [Dashboard.jsx] reads and its fallback object has. *)
Definition snapshot_json (s : StatSnapshot) : JS.JsVal :=
  let num (n : nat) := JS.JNum (Z.of_nat n) in
  JS.JObj [(JS.lit "total_alerts", num (total_alerts s));
           (JS.lit "by_severity",
              JS.JObj [(JS.lit "critical", num (by_severity s Critical));
                       (JS.lit "high", num (by_severity s High));
                       (JS.lit "medium", num (by_severity s Medium));
                       (JS.lit "low", num (by_severity s Low))]);
           (JS.lit "by_status",
              JS.JObj [(JS.lit "open", num (by_status s Open));
                       (JS.lit "investigating", num (by_status s Investigating));
                       (JS.lit "resolved", num (by_status s Resolved))]);
           (JS.lit "active_incidents", num (active_incidents s))].

End Engine.

(** ** The REST surface the dashboard consumes *)

Module Surface.
Import JS Api.

(** Modelled from the spec: the eight endpoints of section 6; the
    backend's routes are missing. *)
Inductive Endpoint : Type :=
| ListAlerts
| CreateAlert
| UpdateAlert (id : JsVal)
| EscalateAlert (id : JsVal)
| Statistics
| BulkUpdate
| ListPlaybooks
| ExecutePlaybook (id : JsVal).

(** Modelled from the spec: the verb and the path section 6 lists for each
    endpoint; {id} is the id as it is printed into the path. *)
Definition verb (ep : Endpoint) : Method :=
  match ep with
  | ListAlerts | Statistics | ListPlaybooks => GET
  | CreateAlert | EscalateAlert _ | BulkUpdate | ExecutePlaybook _ => POST
  | UpdateAlert _ => PUT
  end.

Definition path (ep : Endpoint) : jsstring :=
  match ep with
  | ListAlerts | CreateAlert => lit "/alerts"
  | UpdateAlert id => lit "/alerts/" ++ ToString id
  | EscalateAlert id => lit "/alerts/" ++ ToString id ++ lit "/escalate"
  | Statistics => lit "/alerts/statistics"
  | BulkUpdate => lit "/alerts/bulk-update"
  | ListPlaybooks => lit "/playbooks"
  | ExecutePlaybook id => lit "/playbooks/" ++ ToString id ++ lit "/execute"
  end.

(** The client has a call that sends the endpoint's request. *)
Definition provided (ep : Endpoint) : Prop :=
  ∃ c : Call, sends (request_of c) (verb ep) (path ep).

End Surface.

(** ** Scenarios of the specification's section 8 *)

Module Scenario.
Import Engine.

(** Alert{severity: critical, source: "EDR"}. *)
Definition alert : Alert :=
  mkAlert 7 "Malware Signature Match" Critical Open "EDR" 0 0 ∅.

(** Playbook{trigger: severity>=high} with steps [quarantine-host, notify];
    notify is configured with retry=2. *)
Definition playbook : Playbook :=
  mkPlaybook "contain" true (Pred (SeverityGte High))
    [mkStep 1 QuarantineHost ∅ None 0; mkStep 2 Notify ∅ None 2].

Definition saved : gmap N Playbook := {[ 1%N := playbook ]}.

(** Handlers: one that succeeds, one that fails twice and then succeeds,
    one that always fails. *)
Definition succeeds : nat → Attempt := λ _, AttemptOk.
Definition fails_twice : nat → Attempt :=
  λ n, if decide (n < 2) then AttemptFailed "smtp down" else AttemptOk.
Definition always_fails : nat → Attempt := λ _, AttemptFailed "host unreachable".

(** Three alerts, one of them resolved. *)
Definition three_alerts : list Alert :=
  [alert;
   mkAlert 8 "Port Scan Detected" Medium Investigating "Firewall" 0 0 ∅;
   mkAlert 9 "Suspicious Login Attempt" High Resolved "Auth Service" 0 0 ∅].

End Scenario.

(** ** Backends and inputs the examples use *)

Module Fixtures.
Import JS Api.

(** A backend that is offline: every request fails with a network error. *)
Definition offline : Request → completion JsVal :=
  λ _, Throw (JObj [(lit "message", JStr (lit "Network Error"))]).

(** A backend whose bodies are the empty object. *)
Definition empty_bodies : Request → completion JsVal :=
  λ _, Normal (JObj [(lit "data", JObj [])]).

(** A backend whose list of alerts holds one alert, which has no
    severity. *)
Definition without_severity : Request → completion JsVal :=
  λ _, Normal (JObj [(lit "data",
                      JObj [(lit "alerts",
                             JArr [JObj [(lit "id", JNum 2);
                                         (lit "title", JStr (lit "Port Scan Detected"))]])])]).

(** A playbook as a response can hold it, without steps. *)
Definition without_steps : JsVal :=
  JObj [(lit "id", JNum 4); (lit "name", JStr (lit "Contain"))].

(** An id that does not convert to a string: [{ toString: 1 }]. *)
Definition unprintable_id : JsVal := JObj [(lit "toString", JNum 1)].

(** h, dotless i (U+0131), g, h. *)
Definition dotless_high : jsstring := [0x68; 0x131; 0x67; 0x68]%N.

End Fixtures.

(** * Properties *)

(** ** The API client *)

Section ApiClient.
Import JS Api Surface Fixtures.

Example getAlert_number : req_url (alertService.getAlert (JNum 42)) = lit "/alerts/42".
Proof. reflexivity. Qed.

Example runPlaybook_string :
  req_url (playbookService.runPlaybook (JStr (lit "pb-7"))) = lit "/playbooks/pb-7/execute".
Proof. reflexivity. Qed.

Example getAlerts_filters :
  let filters := JObj [(lit "severity", JStr (lit "high"));
                       (lit "status", JStr (lit "open"));
                       (lit "source", JStr (lit "EDR"))] in
  sends (alertService.getAlerts filters) GET (lit "/alerts") ∧
  get (req_params (alertService.getAlerts filters)) "severity" = Normal (JStr (lit "high")) ∧
  get (req_params (alertService.getAlerts filters)) "status" = Normal (JStr (lit "open")) ∧
  get (req_params (alertService.getAlerts filters)) "source" = Normal (JStr (lit "EDR")).
Proof. by repeat split. Qed.

(** A value that prints converts. *)
Lemma printable_coercible (v : JsVal) : printable v = true → coercible v = true.
Proof.
  revert v. fix IH 1. intros [| |b|z|s|items|fields]; cbn [printable coercible]; try done.
  induction items as [|x items IHitems]; [done|].
  cbn [forallb]. intros [Hx Hrest]%andb_prop.
  by rewrite (IH x Hx), IHitems.
Qed.

(** An id that does not convert ends the call before any request. *)
Example runPlaybook_unprintable_id :
  invoke (CRunPlaybook unprintable_id) =
  Throw (TypeError "Cannot convert object to primitive value").
Proof. reflexivity. Qed.

(** C6. For every id that prints (a string, which prints as itself; a safe
    integer, which prints as its decimal digits, after a minus sign when it
    is negative; any other value whose conversion to a string does not
    throw) each call of the client runs to its request and sends the verb
    and path listed for it, under the base URL /api/v1: getAlerts is
    GET /alerts and carries the caller's filter object as the query
    parameters, createAlert is POST /alerts with the data as body,
    updateAlert(id) is PUT /alerts/{id} with the data as body, getStats is
    GET /alerts/statistics, getPlaybooks is GET /playbooks and
    runPlaybook(id) is POST /playbooks/{id}/execute; {id} is the printed
    id. *)
Theorem client_verbs_and_paths (id params data : JsVal) :
  printable id = true →
  invoke (CGetAlerts params) = Normal (alertService.getAlerts params) ∧
  sends (alertService.getAlerts params) GET (lit "/alerts") ∧
  req_params (alertService.getAlerts params) = params ∧
  invoke (CCreateAlert data) = Normal (alertService.createAlert data) ∧
  sends (alertService.createAlert data) POST (lit "/alerts") ∧
  req_data (alertService.createAlert data) = data ∧
  invoke (CUpdateAlert id data) = Normal (alertService.updateAlert id data) ∧
  sends (alertService.updateAlert id data) PUT (lit "/alerts/" ++ ToString id) ∧
  req_data (alertService.updateAlert id data) = data ∧
  invoke CGetStats = Normal alertService.getStats ∧
  sends alertService.getStats GET (lit "/alerts/statistics") ∧
  invoke CGetPlaybooks = Normal playbookService.getPlaybooks ∧
  sends playbookService.getPlaybooks GET (lit "/playbooks") ∧
  invoke (CRunPlaybook id) = Normal (playbookService.runPlaybook id) ∧
  sends (playbookService.runPlaybook id) POST
    (lit "/playbooks/" ++ ToString id ++ lit "/execute") ∧
  (∀ s, id = JStr s → ToString id = s) ∧
  (∀ z, id = JNum z → ToString id = lit (pretty z)).
Proof.
  intros Hid%printable_coercible.
  assert (invoke (CUpdateAlert id data) = Normal (alertService.updateAlert id data)) as Hu
    by (unfold invoke, to_primitive; by rewrite Hid).
  assert (invoke (CRunPlaybook id) = Normal (playbookService.runPlaybook id)) as Hr
    by (unfold invoke, to_primitive; by rewrite Hid).
  repeat split; try done.
  - by intros s ->.
  - by intros z ->.
Qed.

Lemma client_verbs_and_paths_witness :
  printable (JNum 42) = true ∧
  invoke (CUpdateAlert (JNum 42) JNull) = Normal (alertService.updateAlert (JNum 42) JNull) ∧
  sends (alertService.updateAlert (JNum 42) JNull) PUT (lit "/alerts/42") ∧
  sends (playbookService.runPlaybook (JNum 42)) POST (lit "/playbooks/42/execute").
Proof.
  destruct (client_verbs_and_paths (JNum 42) JUndefined JNull eq_refl)
    as (_ & _ & _ & _ & _ & _ & Hi & Hu & _ & _ & _ & _ & _ & _ & Hr & _).
  split; [reflexivity|]. split; [exact Hi|]. split; [exact Hu|exact Hr].
Defined.

(** The calls that post are createAlert and runPlaybook. *)
Lemma post_calls (c : Call) :
  req_method (request_of c) = POST →
  (∃ data, c = CCreateAlert data) ∨ (∃ id, c = CRunPlaybook id).
Proof. destruct c; simpl; intros H; try discriminate H; eauto. Qed.

Lemma no_call_escalates (id : JsVal) : ¬ provided (EscalateAlert id).
Proof.
  intros [c (Hm & _ & Hu)].
  destruct (post_calls c Hm) as [[d ->] | [i ->]];
    vm_compute in Hu; discriminate Hu.
Qed.

Lemma no_call_bulk_updates : ¬ provided BulkUpdate.
Proof.
  intros [c (Hm & _ & Hu)].
  destruct (post_calls c Hm) as [[d ->] | [i ->]];
    vm_compute in Hu; discriminate Hu.
Qed.

(** C7, as stated, fails: no call of the client sends
    POST /alerts/{id}/escalate (here for alert 1) and none sends
    POST /alerts/bulk-update. *)
Lemma client_lacks_escalate_and_bulk_update :
  ¬ provided (EscalateAlert (JNum 1)) ∧ ¬ provided BulkUpdate.
Proof. split; [apply no_call_escalates | apply no_call_bulk_updates]. Qed.

(** C7, amended. The client provides a call for six endpoints of the
    surface: GET /alerts, POST /alerts, PUT /alerts/{id},
    GET /alerts/statistics, GET /playbooks and POST /playbooks/{id}/execute;
    for POST /alerts/{id}/escalate and POST /alerts/bulk-update it provides
    none. *)
Theorem client_surface_coverage (ep : Endpoint) :
  provided ep ↔
  match ep with
  | EscalateAlert _ | BulkUpdate => False
  | _ => True
  end.
Proof.
  destruct ep as [| |id|id| | | |id]; split; try done.
  - intros _. by exists (CGetAlerts JUndefined).
  - intros _. by exists (CCreateAlert JUndefined).
  - intros _. by exists (CUpdateAlert id JUndefined).
  - apply no_call_escalates.
  - intros _. by exists CGetStats.
  - apply no_call_bulk_updates.
  - intros _. by exists CGetPlaybooks.
  - intros _. by exists (CRunPlaybook id).
Qed.

End ApiClient.

(** ** The pages: failed requests *)

Section FailedRequests.
Import JS Api Fixtures.

(** A rejected request stays rejected through the interceptor, which only
    writes to the console. *)
Lemma await_rejected {S} backend (r : Request) (error : JsVal) (w : World S) :
  backend r = Throw error →
  ∃ e log, await backend r w = (Throw e, mkWorld log (page w)).
Proof.
  intros H. unfold await. rewrite H.
  unfold on_rejected, mbind, M_bind, mret, M_ret, lift, console_error, throw.
  destruct w as [log0 st].
  destruct (get error "response") as [resp|e1]; [|eauto].
  destruct (truthy resp); [simpl; eauto|].
  destruct (get error "message") as [m|e2]; simpl; eauto.
Qed.

Lemma fetchAlerts_rejected backend error (w : World Alerts.State) :
  backend (alertService.getAlerts JUndefined) = Throw error →
  ∃ log, Alerts.fetchAlerts backend w =
         (Normal (), mkWorld log (Alerts.mkState Alerts.mock_alerts false)).
Proof.
  intros H. destruct (await_rejected backend _ _ w H) as (e & log & Hw).
  unfold Alerts.fetchAlerts, try_catch_finally.
  unfold mbind at 1, M_bind. rewrite Hw. cbn. eauto.
Qed.

Lemma fetchStats_rejected backend error (w : World Dashboard.State) :
  backend alertService.getStats = Throw error →
  ∃ log, Dashboard.fetchStats backend w =
         (Normal (), mkWorld log (Dashboard.mkState Dashboard.fallback_stats false)).
Proof.
  intros H. destruct (await_rejected backend _ _ w H) as (e & log & Hw).
  unfold Dashboard.fetchStats, try_catch_finally.
  unfold mbind at 1, M_bind. rewrite Hw. cbn. eauto.
Qed.

(** C8, as stated, fails on the Playbooks page, which has no fallback
    data: with the backend offline the list request leaves the page
    without a card, and the failure of a run request is told to the user
    in a message box. *)
Lemma playbooks_page_has_no_fallback :
  (∃ log,
     Playbooks.fetchPlaybooks offline (mkWorld [] Playbooks.initial) =
       (Normal (), mkWorld log (Playbooks.mkState (JArr []) false JNull [])) ∧
     Playbooks.render (Playbooks.mkState (JArr []) false JNull []) =
       Normal ([], Playbooks.NoOverlay JNull)) ∧
  Playbooks.alerted
    (page (Playbooks.handleRunPlaybook offline (JNum 1) (mkWorld [] Playbooks.initial)).2) =
    [lit "Failed to start playbook"].
Proof. split; [eexists; split; reflexivity|reflexivity]. Qed.

(** C8, amended. When the request of the Alerts page fails, whatever the
    error, the state before and what the other requests do, [fetchAlerts]
    ends normally (no exception escapes), the loading flag is false, and
    the page holds and renders the three mock alerts (ids 1, 2, 3).  When
    the request of the Dashboard fails, likewise, [fetchStats] ends
    normally, the loading flag is false, and the page holds and renders the
    fixed snapshot with 124 total alerts and 3 active incidents. *)
Theorem failed_request_renders_fallback :
  (∀ backend (error : JsVal) (w : World Alerts.State),
     backend (alertService.getAlerts JUndefined) = Throw error →
     ∃ log rows,
       Alerts.fetchAlerts backend w =
         (Normal (), mkWorld log (Alerts.mkState Alerts.mock_alerts false)) ∧
       Alerts.render (Alerts.mkState Alerts.mock_alerts false) = Normal rows ∧
       Alerts.row_key <$> rows = [JNum 1; JNum 2; JNum 3] ∧
       Alerts.row_title <$> rows =
         [JStr (lit "Suspicious Login Attempt"); JStr (lit "Port Scan Detected");
          JStr (lit "Malware Signature Match")] ∧
       Alerts.row_class <$> rows =
         [Alerts.class_high; Alerts.class_medium; Alerts.class_critical]) ∧
  (∀ backend (error : JsVal) (w : World Dashboard.State),
     backend alertService.getStats = Throw error →
     ∃ log,
       Dashboard.fetchStats backend w =
         (Normal (), mkWorld log (Dashboard.mkState Dashboard.fallback_stats false)) ∧
       Dashboard.render (Dashboard.mkState Dashboard.fallback_stats false) =
         Normal (Dashboard.KeyMetrics
                   (Dashboard.mkMetrics (JNum 124) (JNum 12) (JNum 3) (JNum 67)))).
Proof.
  split.
  - intros backend error w H.
    destruct (fetchAlerts_rejected backend _ w H) as [log Hlog].
    exists log. eexists. split; [exact Hlog|].
    split; [vm_compute; reflexivity|]. by vm_compute.
  - intros backend error w H.
    destruct (fetchStats_rejected backend _ w H) as [log Hlog].
    exists log. split; [exact Hlog|]. by vm_compute.
Qed.

(** The Alerts page falls back while the statistics request would go
    through, and the Dashboard while the list of alerts would. *)
Lemma failed_request_renders_fallback_witness :
  (∃ log,
     Alerts.fetchAlerts
       (λ r, if decide (req_url r = lit "/alerts/statistics")
             then Normal (JObj [(lit "data", JObj [])])
             else Throw (JObj [(lit "message", JStr (lit "Network Error"))]))
       (mkWorld [] Alerts.initial) =
       (Normal (), mkWorld log (Alerts.mkState Alerts.mock_alerts false))) ∧
  (∃ log,
     Dashboard.fetchStats
       (λ r, if decide (req_url r = lit "/alerts/statistics")
             then Throw (JObj [(lit "message", JStr (lit "Network Error"))])
             else Normal (JObj [(lit "data", JObj [])]))
       (mkWorld [] Dashboard.initial) =
       (Normal (), mkWorld log (Dashboard.mkState Dashboard.fallback_stats false))).
Proof.
  destruct failed_request_renders_fallback as [Halerts Hstats].
  split.
  - destruct (Halerts
                (λ r, if decide (req_url r = lit "/alerts/statistics")
                      then Normal (JObj [(lit "data", JObj [])])
                      else Throw (JObj [(lit "message", JStr (lit "Network Error"))]))
                (JObj [(lit "message", JStr (lit "Network Error"))])
                (mkWorld [] Alerts.initial)) as (log & rows & Hlog & _);
      [reflexivity|].
    by exists log.
  - destruct (Hstats
                (λ r, if decide (req_url r = lit "/alerts/statistics")
                      then Throw (JObj [(lit "message", JStr (lit "Network Error"))])
                      else Normal (JObj [(lit "data", JObj [])]))
                (JObj [(lit "message", JStr (lit "Network Error"))])
                (mkWorld [] Dashboard.initial)) as (log & Hlog & _);
      [reflexivity|].
    by exists log.
Defined.

(** What the console holds after the Alerts page met the offline backend:
    the interceptor's line and the page's line, nothing on the page. *)
Example offline_console :
  console (Alerts.fetchAlerts offline (mkWorld [] Alerts.initial)).2 =
  [[JStr (lit "API Error:"); JStr (lit "Network Error")];
   [JStr (lit "Failed to fetch alerts");
    JObj [(lit "message", JStr (lit "Network Error"))]]].
Proof. reflexivity. Qed.

End FailedRequests.

(** ** The pages: responses that lack a field *)

Section MissingFields.
Import JS Api Fixtures.

Lemma await_fulfilled {S} backend (r : Request) (response : JsVal) (w : World S) :
  backend r = Normal response → await backend r w = (Normal response, w).
Proof. intros H. unfold await. by rewrite H. Qed.

Lemma fetchAlerts_without_alerts backend response data found (w : World Alerts.State) :
  backend (alertService.getAlerts JUndefined) = Normal response →
  get response "data" = Normal data →
  get data "alerts" = Normal found → truthy found = false →
  Alerts.fetchAlerts backend w =
    (Normal (), mkWorld (console w) (Alerts.mkState (JArr []) false)).
Proof.
  intros Hr Hd Ha Hf. unfold Alerts.fetchAlerts, try_catch_finally.
  unfold mbind, M_bind, lift. rewrite (await_fulfilled _ _ _ _ Hr).
  cbv beta iota. rewrite Hd. cbv beta iota. rewrite Ha.
  unfold or_else. rewrite Hf. by destruct w.
Qed.

Lemma fetchPlaybooks_without_playbooks backend response data found (w : World Playbooks.State) :
  backend playbookService.getPlaybooks = Normal response →
  get response "data" = Normal data →
  get data "playbooks" = Normal found → truthy found = false →
  Playbooks.fetchPlaybooks backend w =
    (Normal (),
     mkWorld (console w)
       (Playbooks.mkState (JArr []) false
          (Playbooks.selectedPlaybook (page w)) (Playbooks.alerted (page w)))).
Proof.
  intros Hr Hd Ha Hf. unfold Playbooks.fetchPlaybooks, try_catch_finally.
  unfold mbind, M_bind, lift. rewrite (await_fulfilled _ _ _ _ Hr).
  cbv beta iota. rewrite Hd. cbv beta iota. rewrite Ha.
  unfold or_else. rewrite Hf. by destruct w.
Qed.

(** C10, as stated, fails for the fields of a record: a fulfilled
    [GET /alerts] whose one alert has no severity is stored as it is, and
    the table throws when it renders; a playbook without steps makes the
    page throw once it is selected. *)
Lemma missing_record_field_breaks_render :
  (∃ st e,
     Alerts.fetchAlerts without_severity (mkWorld [] Alerts.initial) =
       (Normal (), mkWorld [] st) ∧
     Alerts.render st = Throw e) ∧
  (∃ e,
     Playbooks.render
       (Playbooks.mkState (JArr [without_steps]) false without_steps []) = Throw e).
Proof. split; [eexists _, _; split; reflexivity|eexists; reflexivity]. Qed.

(** C10, amended. A successful response whose body lacks the [alerts]
    array, the [playbooks] array or a statistics counter is rendered with
    the empty default.  Without [alerts], whatever the other requests do,
    [fetchAlerts] ends normally, loading is false and the Alerts table has
    no row; without [playbooks], likewise, the Playbooks grid has no card;
    and a statistics counter that is missing, at either level of the
    statistics object or with the object itself null, shows as 0 on the
    Dashboard, which renders. *)
Theorem missing_field_renders_empty_default :
  (∀ backend (response body : JsVal) (w : World Alerts.State),
     backend (alertService.getAlerts JUndefined) = Normal response →
     get response "data" = Normal body →
     get body "alerts" = Normal JUndefined →
     ∃ st, Alerts.fetchAlerts backend w = (Normal (), mkWorld (console w) st) ∧
           Alerts.loading st = false ∧ Alerts.render st = Normal []) ∧
  (∀ backend (response body : JsVal) (w : World Playbooks.State),
     backend playbookService.getPlaybooks = Normal response →
     get response "data" = Normal body →
     get body "playbooks" = Normal JUndefined →
     ∃ st, Playbooks.fetchPlaybooks backend w = (Normal (), mkWorld (console w) st) ∧
           Playbooks.loading st = false ∧ Playbooks.render_grid st = Normal []) ∧
  (∀ stats : JsVal,
     (opt_get stats "total_alerts" = JUndefined →
        Dashboard.total_alerts_value stats = JNum 0) ∧
     (opt_get (opt_get stats "by_severity") "critical" = JUndefined →
        Dashboard.critical_value stats = JNum 0) ∧
     (opt_get stats "active_incidents" = JUndefined →
        Dashboard.active_incidents_value stats = JNum 0) ∧
     (opt_get (opt_get stats "by_status") "resolved" = JUndefined →
        Dashboard.resolved_value stats = JNum 0) ∧
     (opt_get stats "total_alerts" = JUndefined →
      opt_get (opt_get stats "by_severity") "critical" = JUndefined →
      opt_get stats "active_incidents" = JUndefined →
      opt_get (opt_get stats "by_status") "resolved" = JUndefined →
      Dashboard.render (Dashboard.mkState stats false) =
        Normal (Dashboard.KeyMetrics
                  (Dashboard.mkMetrics (JNum 0) (JNum 0) (JNum 0) (JNum 0))))).
Proof.
  split; [|split].
  - intros backend response body w Hr Hd Ha.
    eexists. split; [by eapply (fetchAlerts_without_alerts _ _ _ JUndefined)|done].
  - intros backend response body w Hr Hd Hp.
    eexists. split; [by eapply (fetchPlaybooks_without_playbooks _ _ _ JUndefined)|done].
  - intros stats. repeat split.
    + unfold Dashboard.total_alerts_value. by intros ->.
    + unfold Dashboard.critical_value. by intros ->.
    + unfold Dashboard.active_incidents_value. by intros ->.
    + unfold Dashboard.resolved_value. by intros ->.
    + intros H1 H2 H3 H4.
      unfold Dashboard.render, Dashboard.total_alerts_value, Dashboard.critical_value,
        Dashboard.active_incidents_value, Dashboard.resolved_value.
      cbn [Dashboard.loading Dashboard.stats]. by rewrite H1, H2, H3, H4.
Qed.

(** The Alerts table is empty while the list of playbooks cannot be
    fetched, the grid is empty while the list of alerts cannot, and the
    Dashboard of an empty statistics object shows four zeros. *)
Lemma missing_field_renders_empty_default_witness :
  (∃ st, Alerts.fetchAlerts
           (λ r, if decide (req_url r = lit "/alerts")
                 then Normal (JObj [(lit "data", JObj [])])
                 else Throw (JObj [(lit "message", JStr (lit "Network Error"))]))
           (mkWorld [] Alerts.initial) = (Normal (), mkWorld [] st) ∧
         Alerts.loading st = false ∧ Alerts.render st = Normal []) ∧
  (∃ st, Playbooks.fetchPlaybooks
           (λ r, if decide (req_url r = lit "/playbooks")
                 then Normal (JObj [(lit "data", JObj [])])
                 else Throw (JObj [(lit "message", JStr (lit "Network Error"))]))
           (mkWorld [] Playbooks.initial) = (Normal (), mkWorld [] st) ∧
         Playbooks.loading st = false ∧ Playbooks.render_grid st = Normal []) ∧
  Dashboard.total_alerts_value (JObj []) = JNum 0 ∧
  Dashboard.critical_value (JObj []) = JNum 0 ∧
  Dashboard.active_incidents_value (JObj []) = JNum 0 ∧
  Dashboard.resolved_value (JObj []) = JNum 0 ∧
  Dashboard.render (Dashboard.mkState (JObj []) false) =
    Normal (Dashboard.KeyMetrics
              (Dashboard.mkMetrics (JNum 0) (JNum 0) (JNum 0) (JNum 0))).
Proof.
  destruct missing_field_renders_empty_default as (Halerts & Hplaybooks & Hstats).
  destruct (Hstats (JObj [])) as (H1 & H2 & H3 & H4 & H5).
  split.
  { apply (Halerts
             (λ r, if decide (req_url r = lit "/alerts")
                   then Normal (JObj [(lit "data", JObj [])])
                   else Throw (JObj [(lit "message", JStr (lit "Network Error"))]))
             (JObj [(lit "data", JObj [])]) (JObj [])
             (mkWorld [] Alerts.initial)); reflexivity. }
  split.
  { apply (Hplaybooks
             (λ r, if decide (req_url r = lit "/playbooks")
                   then Normal (JObj [(lit "data", JObj [])])
                   else Throw (JObj [(lit "message", JStr (lit "Network Error"))]))
             (JObj [(lit "data", JObj [])]) (JObj [])
             (mkWorld [] Playbooks.initial)); reflexivity. }
  split; [by apply H1|]. split; [by apply H2|].
  split; [by apply H3|]. split; [by apply H4|]. by apply H5.
Defined.

(** The fallback covers a missing property, not a missing body: a body
    that is [null] makes the read of [alerts] throw inside [try], and the
    Alerts page shows its mock alerts. *)
Example null_body_shows_mock_alerts :
  Alerts.fetchAlerts (λ _, Normal (JObj [(lit "data", JNull)])) (mkWorld [] Alerts.initial) =
  (Normal (),
   mkWorld [[JStr (lit "Failed to fetch alerts");
             TypeError "Cannot read properties of undefined or null"]]
     (Alerts.mkState Alerts.mock_alerts false)).
Proof. reflexivity. Qed.

(** A statistics body that is [null] still renders: optional chaining
    guards every read. *)
Example null_stats_render_zero :
  Dashboard.render (Dashboard.mkState JNull false) =
  Normal (Dashboard.KeyMetrics
            (Dashboard.mkMetrics (JNum 0) (JNum 0) (JNum 0) (JNum 0))).
Proof. reflexivity. Qed.

End MissingFields.

(** ** getSeverityColor *)

Section SeverityColor.
Import JS Alerts Fixtures.

Example severity_upper_case :
  getSeverityColor (JStr (lit "CRITICAL")) = Normal class_critical ∧
  getSeverityColor (JStr (lit "High")) = Normal class_high ∧
  getSeverityColor (JStr (lit "mEdIuM")) = Normal class_medium ∧
  getSeverityColor (JStr (lit "low")) = Normal class_default ∧
  getSeverityColor (JStr (lit "informational")) = Normal class_default.
Proof. by vm_compute. Qed.

(** On Basic Latin, lower-casing after upper-casing is lower-casing. *)
Lemma lower_upper_unit (c : N) :
  (c < 0x80)%N → upper_unit c ≫= lower_unit = lower_unit c.
Proof.
  intros Hc. unfold upper_unit.
  destruct (decide (0x61 ≤ c ≤ 0x7A)%N) as [Hlow|Hlow].
  - cbn [mbind list_bind]. rewrite app_nil_r. unfold lower_unit.
    rewrite (decide_True (P := (0x41 ≤ c - 0x20 ≤ 0x5A)%N)) by lia.
    rewrite (decide_False (P := (0x41 ≤ c ≤ 0x5A)%N)) by lia.
    rewrite (decide_False (P := (0xC0 ≤ c ≤ 0xDE ∧ c ≠ 0xD7)%N)) by lia.
    rewrite !decide_False by lia. f_equal. lia.
  - rewrite !decide_False by lia.
    cbn [mbind list_bind]. by rewrite app_nil_r.
Qed.

Lemma toLowerCase_toUpperCase (s : jsstring) :
  is_ascii s → toLowerCase (toUpperCase s) = toLowerCase s.
Proof.
  unfold toLowerCase, toUpperCase. induction 1 as [|c s Hc Hs IH]; [done|].
  rewrite !bind_cons, bind_app, IH. f_equal. by apply lower_upper_unit.
Qed.

(** C9, as stated, fails: the string of h, dotless i, g, h is not
    'high' in lower case and takes the default class, but its upper case
    is 'HIGH', which takes the class of high. *)
Lemma severity_color_upper_case_differs :
  toUpperCase dotless_high = lit "HIGH" ∧
  getSeverityColor (JStr dotless_high) = Normal class_default ∧
  getSeverityColor (JStr (toUpperCase dotless_high)) = Normal class_high ∧
  getSeverityColor (JStr dotless_high) ≠ getSeverityColor (JStr (toUpperCase dotless_high)).
Proof. by vm_compute. Qed.

(** C9, amended. For every string s, getSeverityColor(s) returns the class
    of critical, high or medium when s in lower case is that word (three
    distinct class strings, also distinct from the default), and the one
    blue default class for every other string; when s has Basic Latin
    characters only, getSeverityColor(s) = getSeverityColor(s.toUpperCase());
    a value that is not a string (null and undefined among them) makes the
    call throw. *)
Theorem severity_color (s : jsstring) :
  (toLowerCase s = lit "critical" → getSeverityColor (JStr s) = Normal class_critical) ∧
  (toLowerCase s = lit "high" → getSeverityColor (JStr s) = Normal class_high) ∧
  (toLowerCase s = lit "medium" → getSeverityColor (JStr s) = Normal class_medium) ∧
  (toLowerCase s ∉ [lit "critical"; lit "high"; lit "medium"] →
     getSeverityColor (JStr s) = Normal class_default) ∧
  NoDup [class_critical; class_high; class_medium; class_default] ∧
  (is_ascii s →
     getSeverityColor (JStr s) = getSeverityColor (JStr (toUpperCase s))) ∧
  (∀ v, (∀ s', v ≠ JStr s') → ∃ e, getSeverityColor v = Throw e).
Proof.
  unfold getSeverityColor, severity_class. repeat split.
  - intros ->. done.
  - intros ->. done.
  - intros ->. done.
  - intros H. rewrite !decide_False; [done|set_solver..].
  - compute_done.
  - intros H. by rewrite toLowerCase_toUpperCase.
  - intros v Hv. destruct v; eauto. by destruct (Hv s0).
Qed.

Lemma severity_color_witness :
  getSeverityColor (JStr (lit "HIGH")) = Normal class_high ∧
  getSeverityColor (JStr (lit "HIGH")) = getSeverityColor (JStr (toUpperCase (lit "HIGH"))) ∧
  ∃ e, getSeverityColor JNull = Throw e.
Proof.
  destruct (severity_color (lit "HIGH")) as (_ & Hhigh & _ & _ & _ & Hupper & Hthrow).
  split; [by apply Hhigh|]. split.
  - apply Hupper. unfold is_ascii. by repeat constructor.
  - apply Hthrow. intros s' H. discriminate H.
Defined.

End SeverityColor.

(** ** Statistics on the Dashboard *)

Section Statistics.
Import JS Api Fixtures.

Lemma filter_complement_length {A} (P : A → Prop) `{!∀ x, Decision (P x)} (l : list A) :
  length (filter P l) + length (filter (λ x, ¬ P x) l) = length l.
Proof.
  induction l as [|x l IH]; [done|].
  rewrite !filter_cons. destruct (decide (P x)).
  - rewrite decide_False by tauto. simpl. lia.
  - rewrite decide_True by done. simpl. lia.
Qed.

Lemma or_else_number (z : Z) : or_else (JNum z) (JNum 0) = JNum z.
Proof.
  unfold or_else. simpl. destruct (Z.eqb_spec z 0) as [->|]; done.
Qed.

Lemma recount_partition (alerts : list Engine.Alert) :
  Engine.by_status (Engine.recount alerts) Engine.Resolved
  + Engine.active_incidents (Engine.recount alerts)
  = Engine.total_alerts (Engine.recount alerts).
Proof. apply (filter_complement_length (λ a, Engine.alert_status a = Engine.Resolved)). Qed.

(** C5, as stated, fails for a snapshot the Dashboard renders: when the
    request fails the cards show the fixed fallback, whose active-incident
    count is 3 while its total minus its resolved count is 124 - 67 = 57. *)
Lemma fallback_snapshot_breaks_active_count :
  ∃ log,
    Dashboard.fetchStats offline (mkWorld [] Dashboard.initial) =
      (Normal (), mkWorld log (Dashboard.mkState Dashboard.fallback_stats false)) ∧
    Dashboard.render (Dashboard.mkState Dashboard.fallback_stats false) =
      Normal (Dashboard.KeyMetrics
                (Dashboard.mkMetrics (JNum 124) (JNum 12) (JNum 3) (JNum 67))) ∧
    (3 ≠ 124 - 67)%Z.
Proof. eexists. split; [reflexivity|]. split; [reflexivity|]. lia. Qed.

(** C5, amended. In a StatSnapshot the statistics endpoint computes from
    the alert set, the active-incident count is the number of alerts whose
    status is not resolved, which is total_alerts minus the resolved count
    of by_status, and the Dashboard shows the counts of the response as
    they are.  (The fallback the Dashboard substitutes when the request
    fails is not such a snapshot.) *)
Theorem statistics_active_incidents
    (alerts : list Engine.Alert) backend (response : JsVal) (w : World Dashboard.State) :
  backend alertService.getStats = Normal response →
  get response "data" = Normal (Engine.snapshot_json (Engine.recount alerts)) →
  let snap := Engine.recount alerts in
  Engine.active_incidents snap =
    length (filter (λ a, Engine.alert_status a ≠ Engine.Resolved) alerts) ∧
  Engine.active_incidents snap =
    Engine.total_alerts snap - Engine.by_status snap Engine.Resolved ∧
  Dashboard.fetchStats backend w =
    (Normal (), mkWorld (console w) (Dashboard.mkState (Engine.snapshot_json snap) false)) ∧
  Dashboard.render (Dashboard.mkState (Engine.snapshot_json snap) false) =
    Normal (Dashboard.KeyMetrics
              (Dashboard.mkMetrics
                 (JNum (Z.of_nat (Engine.total_alerts snap)))
                 (JNum (Z.of_nat (Engine.by_severity snap Engine.Critical)))
                 (JNum (Z.of_nat (Engine.active_incidents snap)))
                 (JNum (Z.of_nat (Engine.by_status snap Engine.Resolved))))).
Proof.
  intros Hr Hd snap. split; [done|]. split.
  { pose proof (recount_partition alerts). fold snap in H. lia. }
  split.
  - unfold Dashboard.fetchStats, try_catch_finally, mbind, M_bind, lift.
    rewrite (await_fulfilled _ _ _ _ Hr). cbv beta iota. rewrite Hd.
    by destruct w.
  - unfold Dashboard.render. cbn [Dashboard.loading Dashboard.stats].
    unfold Dashboard.total_alerts_value, Dashboard.critical_value,
      Dashboard.active_incidents_value, Dashboard.resolved_value.
    change (opt_get (Engine.snapshot_json snap) "total_alerts")
      with (JNum (Z.of_nat (Engine.total_alerts snap))).
    change (opt_get (opt_get (Engine.snapshot_json snap) "by_severity") "critical")
      with (JNum (Z.of_nat (Engine.by_severity snap Engine.Critical))).
    change (opt_get (Engine.snapshot_json snap) "active_incidents")
      with (JNum (Z.of_nat (Engine.active_incidents snap))).
    change (opt_get (opt_get (Engine.snapshot_json snap) "by_status") "resolved")
      with (JNum (Z.of_nat (Engine.by_status snap Engine.Resolved))).
    by rewrite !or_else_number.
Qed.

End Statistics.

(** ** The engine: admission *)

Section Admission.
Import Engine.

Lemma init_one_active pbs : one_active_run_per_pair (init pbs).
Proof. intros i j ri rj Hi. unfold init in Hi. cbn [runs] in Hi. by rewrite lookup_empty in Hi. Qed.

Lemma request_run_coalesced p a e :
  map_Exists (λ _ r, active_for p a r) (runs e) → request_run p a e = e.
Proof. intros H. unfold request_run. by rewrite decide_True. Qed.

Lemma request_run_playbooks p a e : playbooks (request_run p a e) = playbooks e.
Proof. unfold request_run. by case_decide. Qed.

Lemma request_run_one_active p a e :
  one_active_run_per_pair e → one_active_run_per_pair (request_run p a e).
Proof.
  intros Inv. unfold request_run. case_decide as Hex; [done|].
  intros i j ri rj Hi Hj Ai Aj Hp Ha. cbn [runs] in Hi, Hj.
  apply lookup_insert_Some in Hi as [[<- <-]|[Hni Hi]];
    apply lookup_insert_Some in Hj as [[<- <-]|[Hnj Hj]].
  - done.
  - destruct Hex. exists j, rj. split; [done|]. by repeat split.
  - destruct Hex. exists i, ri. split; [done|]. by repeat split.
  - by eapply Inv.
Qed.

Lemma update_one_active rid r f e :
  settles f → runs e !! rid = Some r →
  one_active_run_per_pair e →
  one_active_run_per_pair (mkEngine (playbooks e) (<[rid := f r]> (runs e))).
Proof.
  intros Hf Hr Inv i j ri rj Hi Hj Ai Aj Hp Ha. cbn [runs] in Hi, Hj.
  destruct (Hf r) as (Fp & Fa & Fact).
  apply lookup_insert_Some in Hi as [[<- <-]|[Hni Hi]];
    apply lookup_insert_Some in Hj as [[<- <-]|[Hnj Hj]].
  - done.
  - apply (Inv rid j r rj); auto; congruence.
  - apply (Inv i rid ri r); auto; congruence.
  - by eapply Inv.
Qed.

Lemma on_run_one_active rid f e :
  settles f → one_active_run_per_pair e → one_active_run_per_pair (on_run rid f e).
Proof.
  intros Hf Inv. unfold on_run. destruct (runs e !! rid) as [r|] eqn:Hr; [|done].
  by apply update_one_active.
Qed.

Lemma start_run_settles : settles start_run.
Proof. intros [p a st res]. unfold start_run, active. by destruct st. Qed.

Lemma advance_settles steps exec : settles (advance steps exec).
Proof.
  intros [p a st res]. unfold advance, active. cbn [run_state run_results run_playbook run_alert].
  destruct st; try done. by destruct (steps !! length res).
Qed.

Lemma cancel_run_settles steps : settles (cancel_run steps).
Proof.
  intros [p a st res]. unfold cancel_run, active. by destruct st.
Qed.

Lemma ingest_one_active alert e :
  one_active_run_per_pair e → one_active_run_per_pair (ingest alert e).
Proof.
  intros Inv. unfold ingest. induction (matching alert e) as [|p ps IH]; [done|].
  by apply request_run_one_active.
Qed.

Lemma step_one_active e ev :
  one_active_run_per_pair e → one_active_run_per_pair (step e ev).
Proof.
  intros Inv. destruct ev as [alert|p a|rid|rid exec|rid]; cbn [step].
  - by apply ingest_one_active.
  - unfold execute. destruct (playbooks e !! p); [|done].
    by apply request_run_one_active.
  - apply on_run_one_active; [apply start_run_settles|done].
  - apply on_run_one_active; [|done].
    intros r. apply advance_settles.
  - unfold cancel. destruct (runs e !! rid) as [r|] eqn:Hr; [|done].
    apply (update_one_active rid r (cancel_run (steps_of e r)));
      [apply cancel_run_settles|done..].
Qed.

Lemma foldl_step_one_active evs e :
  one_active_run_per_pair e → one_active_run_per_pair (foldl step e evs).
Proof.
  revert e. induction evs as [|ev evs IH]; intros e Inv; [done|].
  apply IH. by apply step_one_active.
Qed.

Lemma ingest_coalesced alert e :
  (∀ p, p ∈ matching alert e →
        map_Exists (λ _ r, active_for p (alert_id alert) r) (runs e)) →
  ingest alert e = e.
Proof.
  unfold ingest. induction (matching alert e) as [|p ps IH]; intros H; [done|].
  cbn [foldr]. rewrite IH by (intros q Hq; apply H; set_solver).
  apply request_run_coalesced, H. set_solver.
Qed.

(** C1. After any history of events, no two distinct runs of the same
    (playbook, alert) pair are both Pending or Running; and while a pair
    has such a run, a manual execute request for it, and an ingestion
    whose matching playbooks all have one, leave the store as it is: the
    request is coalesced and no run is created. *)
Theorem one_active_run_per_pair_always (pbs : gmap N Playbook) (evs : list Event) :
  let e := run_events pbs evs in
  one_active_run_per_pair e ∧
  (∀ p a, map_Exists (λ _ r, active_for p a r) (runs e) →
          request_run p a e = e ∧ step e (Execute p a) = e) ∧
  (∀ alert,
     (∀ p, p ∈ matching alert e →
           map_Exists (λ _ r, active_for p (alert_id alert) r) (runs e)) →
     step e (Ingest alert) = e).
Proof.
  intros e. split; [|split].
  - apply foldl_step_one_active, init_one_active.
  - intros p a H. split; [by apply request_run_coalesced|].
    cbn [step]. unfold execute. destruct (playbooks e !! p); [|done].
    by apply request_run_coalesced.
  - intros alert H. by apply ingest_coalesced.
Qed.

End Admission.

(** ** The engine: step results *)

Section StepResults.
Import Engine.

Lemma prefix_snoc_lookup {A} (l k : list A) (x : A) :
  l `prefix_of` k → k !! length l = Some x → (l ++ [x]) `prefix_of` k.
Proof.
  intros [k' ->] Hx. rewrite lookup_app_r, Nat.sub_diag in Hx by lia.
  destruct k' as [|y k'']; simplify_eq/=.
  exists k''. by rewrite <-app_assoc.
Qed.

Lemma prefix_drop_rest {A} (l k : list A) :
  l `prefix_of` k → l ++ drop (length l) k = k.
Proof. intros [k' ->]. by rewrite drop_app_length. Qed.

Lemma execute_step_index exec s : sr_index (execute_step exec s) = step_order s.
Proof. unfold execute_step. by destruct (attempts exec (step_retry s) 0) as [[??]?]. Qed.

Lemma start_run_in_order steps r : in_order steps r → in_order steps (start_run r).
Proof. destruct r as [p a st res]. unfold start_run, in_order. by destruct st. Qed.

Lemma advance_in_order steps exec r :
  in_order steps r → in_order steps (advance steps exec r).
Proof.
  destruct r as [p a st res]. unfold advance, in_order.
  cbn [run_state run_results run_playbook run_alert]. intros Hpre.
  destruct st; try done.
  destruct (steps !! length res) as [s|] eqn:Hs; [|done].
  cbn [run_results]. rewrite fmap_app. cbn [fmap list_fmap].
  rewrite execute_step_index. apply prefix_snoc_lookup; [done|].
  by rewrite length_fmap, list_lookup_fmap, Hs.
Qed.

Lemma cancel_run_in_order steps r :
  in_order steps r → in_order steps (cancel_run steps r).
Proof.
  destruct r as [p a st res]. unfold cancel_run, in_order, active.
  cbn [run_state run_results]. intros Hpre.
  destruct st; try done; cbn [run_results];
    rewrite fmap_app, <-list_fmap_compose;
    change (sr_index ∘ skipped) with step_order;
    rewrite fmap_drop, <-(length_fmap sr_index res), prefix_drop_rest by done;
    done.
Qed.

Lemma start_run_playbook r : run_playbook (start_run r) = run_playbook r.
Proof. apply start_run_settles. Qed.
Lemma advance_playbook steps exec r : run_playbook (advance steps exec r) = run_playbook r.
Proof. apply advance_settles. Qed.
Lemma cancel_run_playbook steps r : run_playbook (cancel_run steps r) = run_playbook r.
Proof. apply cancel_run_settles. Qed.

Lemma steps_of_eq e e' r r' :
  playbooks e' = playbooks e → run_playbook r' = run_playbook r →
  steps_of e' r' = steps_of e r.
Proof. unfold steps_of. by intros -> ->. Qed.

Lemma request_run_in_order p a e :
  results_in_order e → results_in_order (request_run p a e).
Proof.
  intros Inv. unfold request_run. case_decide; [done|].
  intros rid r Hr. cbn [runs] in Hr.
  apply lookup_insert_Some in Hr as [[_ <-]|[_ Hr]].
  - apply prefix_nil.
  - by apply (Inv rid r).
Qed.

Lemma update_in_order rid r r' e :
  runs e !! rid = Some r → run_playbook r' = run_playbook r →
  in_order (steps_of e r) r' →
  results_in_order e →
  results_in_order (mkEngine (playbooks e) (<[rid := r']> (runs e))).
Proof.
  intros Hr Hp Hnew Inv i ri Hi. cbn [runs] in Hi.
  apply lookup_insert_Some in Hi as [[_ <-]|[_ Hi]].
  - by rewrite (steps_of_eq e _ r r').
  - rewrite (steps_of_eq e _ ri ri) by done. by apply (Inv i ri).
Qed.

Lemma ingest_in_order alert e : results_in_order e → results_in_order (ingest alert e).
Proof.
  intros Inv. unfold ingest. induction (matching alert e) as [|p ps IH]; [done|].
  by apply request_run_in_order.
Qed.

Lemma step_in_order e ev : results_in_order e → results_in_order (step e ev).
Proof.
  intros Inv. destruct ev as [alert|p a|rid|rid exec|rid]; cbn [step].
  - by apply ingest_in_order.
  - unfold execute. destruct (playbooks e !! p); [|done].
    by apply request_run_in_order.
  - unfold on_run. destruct (runs e !! rid) as [r|] eqn:Hr; [|done].
    apply (update_in_order rid r);
      [done | apply start_run_playbook | apply start_run_in_order, (Inv rid r Hr) | done].
  - unfold on_run. destruct (runs e !! rid) as [r|] eqn:Hr; [|done].
    apply (update_in_order rid r);
      [done | apply advance_playbook | apply advance_in_order, (Inv rid r Hr) | done].
  - unfold cancel. destruct (runs e !! rid) as [r|] eqn:Hr; [|done].
    apply (update_in_order rid r);
      [done | apply cancel_run_playbook | apply cancel_run_in_order, (Inv rid r Hr) | done].
Qed.

Lemma run_events_in_order pbs evs : results_in_order (run_events pbs evs).
Proof.
  unfold run_events.
  assert (results_in_order (init pbs)) as Hinit.
  { intros rid r Hr. unfold init in Hr. cbn [runs] in Hr. by rewrite lookup_empty in Hr. }
  revert Hinit. generalize (init pbs).
  induction evs as [|ev evs IH]; intros e Inv; [done|].
  apply IH. by apply step_in_order.
Qed.

(** When every attempt the budget allows fails, the step's outcome is not
    Success and all the attempts were made. *)
Lemma attempts_exhausted exec budget n :
  (∀ k, n ≤ k ≤ n + budget → exec k ≠ AttemptOk) →
  (attempts exec budget n).1.1 ≠ Success ∧ (attempts exec budget n).1.2 = S (n + budget).
Proof.
  revert n. induction budget as [|b IH]; intros n H; cbn [attempts].
  - specialize (H n ltac:(lia)). destruct (exec n); [done|..];
      (split; [done|cbn; lia]).
  - pose proof (H n ltac:(lia)) as Hn.
    destruct (exec n); [done|..];
      (destruct (IH (S n)) as [H1 H2];
       [intros k Hk; apply H; lia | split; [done | rewrite H2; lia]]).
Qed.

Lemma execute_step_exhausted exec s :
  (∀ k, k ≤ step_retry s → exec k ≠ AttemptOk) →
  sr_outcome (execute_step exec s) ≠ Success ∧
  sr_attempts (execute_step exec s) = S (step_retry s).
Proof.
  intros H. destruct (attempts_exhausted exec (step_retry s) 0) as [H1 H2].
  { intros k Hk. apply H. lia. }
  unfold execute_step. by destruct (attempts exec (step_retry s) 0) as [[??]?].
Qed.

(** A run in a terminal state is not changed by any event. *)
Lemma terminal_unchanged e ev rid r :
  runs e !! rid = Some r → active r = false → runs (step e ev) !! rid = Some r.
Proof.
  intros Hr Hterm.
  assert (∀ p a e0, runs e0 !! rid = Some r → runs (request_run p a e0) !! rid = Some r) as Hreq.
  { intros p a e0 H0. unfold request_run. case_decide; [done|]. cbn [runs].
    rewrite lookup_insert_ne; [done|].
    intros Heq. pose proof (is_fresh (dom (runs e0))) as Hfresh.
    rewrite Heq in Hfresh. apply Hfresh, elem_of_dom. by eexists. }
  assert (∀ f, f r = r → runs (on_run rid f e) !! rid = Some r) as Hsame.
  { intros f Hf. unfold on_run. rewrite Hr. cbn [runs].
    by rewrite lookup_insert_eq, Hf. }
  assert (∀ rid' f, rid' ≠ rid → runs (on_run rid' f e) !! rid = Some r) as Hother.
  { intros rid' f Hne. unfold on_run. destruct (runs e !! rid'); [|done].
    cbn [runs]. by rewrite lookup_insert_ne. }
  destruct ev as [alert|p a|rid'|rid' exec|rid']; cbn [step].
  - unfold ingest. induction (matching alert e) as [|p ps IH]; [done|].
    by apply Hreq.
  - unfold execute. destruct (playbooks e !! p); [|done]. by apply Hreq.
  - destruct (decide (rid' = rid)) as [->|Hne]; [|by apply Hother].
    apply Hsame. destruct r as [p a st res]. unfold start_run. by destruct st.
  - destruct (decide (rid' = rid)) as [->|Hne]; [|by apply Hother].
    unfold on_run. rewrite Hr. cbn [runs]. rewrite lookup_insert_eq. f_equal.
    destruct r as [p a st res]. unfold advance. by destruct st.
  - unfold cancel. destruct (decide (rid' = rid)) as [->|Hne].
    + rewrite Hr. cbn [runs]. rewrite lookup_insert_eq. f_equal.
      unfold cancel_run. by rewrite Hterm.
    + destruct (runs e !! rid'); [|done]. cbn [runs]. by rewrite lookup_insert_ne.
Qed.

Lemma terminal_unchanged_later evs e rid r :
  runs e !! rid = Some r → active r = false → runs (foldl step e evs) !! rid = Some r.
Proof.
  revert e. induction evs as [|ev evs IH]; intros e Hr Hterm; [done|].
  apply IH; [|done]. by apply terminal_unchanged.
Qed.

(** C2. At every point of a history, the step indices of a run's results,
    in the order of the list, are a prefix of the playbook's step sequence;
    with steps indexed 1..N a result for index i+1 (i at least 1) comes
    with a result for index i.  When the next step fails on every attempt
    its retry budget allows, the step event records its result, makes the
    run Failed, and no later event adds a result to the run. *)
Theorem step_results_are_prefix
    (pbs : gmap N Playbook) (evs : list Event) (rid : N) (r : ExecutionRun) :
  let e := run_events pbs evs in
  runs e !! rid = Some r →
  (sr_index <$> run_results r) `prefix_of` (step_order <$> steps_of e r) ∧
  (∀ pb i res,
     playbooks e !! run_playbook r = Some pb → well_formed pb →
     1 ≤ i → res ∈ run_results r → sr_index res = S i →
     ∃ res', res' ∈ run_results r ∧ sr_index res' = i) ∧
  (∀ exec s,
     run_state r = Running →
     steps_of e r !! length (run_results r) = Some s →
     (∀ k, k ≤ step_retry s → exec k ≠ AttemptOk) →
     ∃ r', runs (step e (StepDone rid exec)) !! rid = Some r' ∧
           run_state r' = Failed ∧
           run_results r' = run_results r ++ [execute_step exec s] ∧
           sr_attempts (execute_step exec s) = S (step_retry s) ∧
           ∀ later, runs (foldl step (step e (StepDone rid exec)) later) !! rid = Some r').
Proof.
  intros e Hr.
  pose proof (run_events_in_order pbs evs rid r Hr) as Hpre. fold e in Hpre.
  split; [exact Hpre|]. split.
  - intros pb i res Hpb Hwf Hi Hres Hidx.
    unfold in_order, steps_of in Hpre. rewrite Hpb, Hwf in Hpre.
    assert (∀ j x, run_results r !! j = Some x → sr_index x = S j) as Hpos.
    { intros j x Hj.
      assert ((sr_index <$> run_results r) !! j = Some (sr_index x)) as Hj'
        by (by rewrite list_lookup_fmap, Hj).
      apply (prefix_lookup_Some _ _ _ _ Hj') in Hpre.
      apply lookup_seq in Hpre. lia. }
    apply list_elem_of_lookup in Hres as [j Hj].
    pose proof (Hpos j res Hj) as Hj1.
    assert (j = i) as -> by lia.
    destruct i as [|i']; [lia|].
    destruct (run_results r !! i') as [res'|] eqn:Hres'.
    + exists res'. split; [by eapply list_elem_of_lookup_2|]. by apply Hpos.
    + apply lookup_ge_None in Hres'. apply lookup_lt_Some in Hj. lia.
  - intros exec s Hrun Hs Hfail.
    destruct (execute_step_exhausted exec s Hfail) as [Hout Hatt].
    set (r' := mkRun (run_playbook r) (run_alert r) Failed
                 (run_results r ++ [execute_step exec s])).
    assert (runs (step e (StepDone rid exec)) !! rid = Some r') as Hr'.
    { cbn [step]. unfold on_run. rewrite Hr. cbn [runs].
      rewrite lookup_insert_eq. f_equal. unfold advance. rewrite Hrun, Hs.
      by rewrite decide_False. }
    exists r'. repeat split; try done.
    intros later. by apply terminal_unchanged_later.
Qed.

End StepResults.

(** ** The engine: cancellation *)

Section Cancellation.
Import Engine.

Lemma cancel_run_terminal steps r : active r = false → cancel_run steps r = r.
Proof. intros H. unfold cancel_run. by rewrite H. Qed.

Lemma cancel_run_active steps r :
  active r = true →
  cancel_run steps r =
    mkRun (run_playbook r) (run_alert r) Cancelled
      (run_results r ++ (skipped <$> drop (length (run_results r)) steps)).
Proof. intros H. unfold cancel_run. by rewrite H. Qed.

(** C3. Cancelling a run that is Pending or Running succeeds and makes it
    Cancelled: the results it had are kept, every step after them has a
    Skipped result, and no other run is touched.  Cancelling a run that is
    Completed, Failed or Cancelled succeeds and returns the same engine
    state. *)
Theorem cancel_semantics (e : Engine) (rid : N) (r : ExecutionRun) :
  runs e !! rid = Some r →
  (run_state r = Pending ∨ run_state r = Running →
     ∃ e' r',
       cancel rid e = inr e' ∧ runs e' !! rid = Some r' ∧
       run_state r' = Cancelled ∧
       (∀ k res, run_results r !! k = Some res → run_results r' !! k = Some res) ∧
       (∀ k s, length (run_results r) ≤ k → steps_of e r !! k = Some s →
               ∃ res, run_results r' !! k = Some res ∧
                      sr_index res = step_order s ∧ sr_outcome res = Skipped) ∧
       length (run_results r') = length (run_results r) `max` length (steps_of e r) ∧
       (∀ other, other ≠ rid → runs e' !! other = runs e !! other)) ∧
  (run_state r = Completed ∨ run_state r = Failed ∨ run_state r = Cancelled →
     cancel rid e = inr e ∧ step e (Cancel rid) = e).
Proof.
  intros Hr. split.
  - intros Hact.
    assert (active r = true) as Ha by (unfold active; by destruct Hact as [-> | ->]).
    eexists _, _. split; [by unfold cancel; rewrite Hr|].
    cbn [runs]. rewrite lookup_insert_eq, (cancel_run_active _ _ Ha).
    split; [done|]. cbn [run_state run_results]. split; [done|]. split; [|split; [|split]].
    + intros k res Hk. rewrite lookup_app_l; [done|]. by eapply lookup_lt_Some.
    + intros k s Hk Hs. exists (skipped s). split; [|done].
      rewrite lookup_app_r by done. rewrite list_lookup_fmap, lookup_drop.
      replace (length (run_results r) + (k - length (run_results r))) with k by lia.
      by rewrite Hs.
    + rewrite length_app, length_fmap, length_drop. lia.
    + intros other Hne. by rewrite lookup_insert_ne.
  - intros Hterm.
    assert (active r = false) as Ha
      by (unfold active; by destruct Hterm as [-> | [-> | ->]]).
    assert (cancel rid e = inr e) as Hc.
    { unfold cancel. rewrite Hr, (cancel_run_terminal _ _ Ha), insert_id by done.
      by destruct e. }
    split; [done|]. cbn [step]. by rewrite Hc.
Qed.

End Cancellation.

(** ** The scenarios, run *)

Section Scenarios.
Import JS Api Engine Scenario.

(** One run is created for the critical EDR alert, both steps succeed (the
    second on its third attempt), and the run is Completed. *)
Example scenario_completed :
  map_to_list (runs (run_events saved
    [Ingest alert; Start 0; StepDone 0 succeeds; StepDone 0 fails_twice])) =
  [(0%N, mkRun 1 7 Completed
           [mkStepResult 1 Success 1 None; mkStepResult 2 Success 3 None])].
Proof. by vm_compute. Qed.

(** A burst of triggers and execute requests for the same pair makes one
    run; once it has failed, the next request is admitted. *)
Example scenario_burst :
  map_to_list (runs (run_events saved
    [Ingest alert; Ingest alert; Execute 1 7; Start 0; Execute 1 7;
     StepDone 0 always_fails; StepDone 0 succeeds; Execute 1 7])) =
  [(1%N, mkRun 1 7 Pending []);
   (0%N, mkRun 1 7 Failed [mkStepResult 1 StepFailed 1 (Some "host unreachable")])].
Proof. by vm_compute. Qed.

Lemma one_active_run_per_pair_always_witness :
  let e := run_events saved [Ingest alert; Start 0] in
  one_active_run_per_pair e ∧
  step e (Execute 1 7) = e ∧
  step e (Ingest alert) = e.
Proof.
  destruct (one_active_run_per_pair_always saved [Ingest alert; Start 0])
    as (Hinv & Hex & Hin).
  assert (map_Exists (λ _ r, active_for 1 7 r)
            (runs (run_events saved [Ingest alert; Start 0]))) as Hact.
  { exists 0%N, (mkRun 1 7 Running []). split; [by vm_compute|done]. }
  split; [exact Hinv|]. split.
  - by apply Hex.
  - apply Hin. intros p Hp.
    assert (matching alert (run_events saved [Ingest alert; Start 0]) = [1%N]) as Hm
      by (by vm_compute).
    rewrite Hm in Hp. apply list_elem_of_singleton in Hp as ->. exact Hact.
Defined.

Lemma step_results_are_prefix_witness :
  let e := run_events saved [Ingest alert; Start 0; StepDone 0 succeeds] in
  runs e !! 0%N = Some (mkRun 1 7 Running [mkStepResult 1 Success 1 None]) ∧
  [1] `prefix_of` [1; 2] ∧
  ∃ r', runs (step e (StepDone 0 always_fails)) !! 0%N = Some r' ∧
        run_state r' = Failed ∧
        sr_index <$> run_results r' = [1; 2] ∧
        sr_attempts <$> run_results r' = [1; 3] ∧
        runs (foldl step (step e (StepDone 0 always_fails))
                [StepDone 0 succeeds; Start 0]) !! 0%N = Some r'.
Proof.
  assert (runs (run_events saved [Ingest alert; Start 0; StepDone 0 succeeds]) !! 0%N
          = Some (mkRun 1 7 Running [mkStepResult 1 Success 1 None])) as Hr
    by (by vm_compute).
  destruct (step_results_are_prefix saved
              [Ingest alert; Start 0; StepDone 0 succeeds] 0%N _ Hr)
    as (Hpre & _ & Hfail).
  split; [exact Hr|]. split; [exact Hpre|].
  destruct (Hfail always_fails (mkStep 2 Notify ∅ None 2)) as (r' & H1 & H2 & H3 & H4 & H5).
  - reflexivity.
  - by vm_compute.
  - intros k _. discriminate.
  - exists r'. split; [exact H1|]. split; [exact H2|].
    split; [by rewrite H3|]. split; [by rewrite H3|]. apply H5.
Defined.

Lemma cancel_semantics_witness :
  let e := run_events saved [Ingest alert; Start 0; StepDone 0 succeeds] in
  (∃ e' r', cancel 0 e = inr e' ∧ runs e' !! 0%N = Some r' ∧
            run_state r' = Cancelled ∧
            run_results r' !! 0 = Some (mkStepResult 1 Success 1 None) ∧
            (∃ res, run_results r' !! 1 = Some res ∧
                    sr_index res = 2 ∧ sr_outcome res = Skipped) ∧
            length (run_results r') = 2) ∧
  let done := run_events saved
                [Ingest alert; Start 0; StepDone 0 succeeds; StepDone 0 succeeds] in
  cancel 0 done = inr done ∧ step done (Cancel 0) = done.
Proof.
  split.
  - assert (runs (run_events saved [Ingest alert; Start 0; StepDone 0 succeeds]) !! 0%N
            = Some (mkRun 1 7 Running [mkStepResult 1 Success 1 None])) as Hr
      by (by vm_compute).
    destruct (cancel_semantics _ 0%N _ Hr) as [Hactive _].
    destruct Hactive as (e' & r' & H1 & H2 & H3 & H4 & H5 & H6 & _); [by right|].
    exists e', r'. split; [exact H1|]. split; [exact H2|]. split; [exact H3|].
    split; [by apply H4|]. split; [|exact H6].
    apply (H5 1 (mkStep 2 Notify ∅ None 2)); [done|by vm_compute].
  - assert (runs (run_events saved
                    [Ingest alert; Start 0; StepDone 0 succeeds; StepDone 0 succeeds]) !! 0%N
            = Some (mkRun 1 7 Completed
                      [mkStepResult 1 Success 1 None; mkStepResult 2 Success 1 None])) as Hr
      by (by vm_compute).
    destruct (cancel_semantics _ 0%N _ Hr) as [_ Hterminal].
    apply Hterminal. by left.
Defined.

Lemma statistics_active_incidents_witness :
  let snap := recount three_alerts in
  active_incidents snap = 2 ∧
  total_alerts snap - by_status snap Resolved = 2 ∧
  Dashboard.render (Dashboard.mkState (snapshot_json snap) false) =
    Normal (Dashboard.KeyMetrics
              (Dashboard.mkMetrics (JNum 3) (JNum 1) (JNum 2) (JNum 1))).
Proof.
  destruct (statistics_active_incidents three_alerts
              (λ _, Normal (JObj [(lit "data", snapshot_json (recount three_alerts))]))
              (JObj [(lit "data", snapshot_json (recount three_alerts))])
              (mkWorld [] Dashboard.initial) eq_refl eq_refl)
    as (H1 & H2 & _ & H4).
  split; [exact H1|]. split; [by rewrite <-H2|]. exact H4.
Defined.

End Scenarios.

(** * Further properties of the front end *)

(** ** The interceptor and the fetch handlers *)

Section Handlers.
Import JS Api Fixtures.

Lemma on_rejected_object {S} (error : JsVal) (w : World S) :
  error ≠ JUndefined → error ≠ JNull →
  on_rejected error w =
    (Throw error,
     mkWorld (console w ++ [[JStr (lit "API Error:");
                             or_else (opt_get error "response") (opt_get error "message")]])
       (page w)).
Proof.
  intros Hu Hn. unfold on_rejected, mbind, M_bind, mret, M_ret, lift, console_error, throw.
  destruct error as [| |b|z|s|items|fields]; try done.
  cbn [get opt_get]. unfold or_else.
  by destruct (truthy (default JUndefined (assoc (lit "response") fields))).
Qed.

(** The interceptor never changes how a request ends.  A response comes
    back as it is and nothing is logged; an error that is not null or
    undefined is thrown again, the very same value, after one console line
    'API Error:' with [error.response] when it is truthy and
    [error.message] otherwise; the page's state is not touched. *)
Theorem interceptor_keeps_outcome {S} backend (r : Request) (w : World S) :
  match backend r with
  | Normal response => await backend r w = (Normal response, w)
  | Throw error =>
      error ≠ JUndefined → error ≠ JNull →
      await backend r w =
        (Throw error,
         mkWorld (console w ++ [[JStr (lit "API Error:");
                                 or_else (opt_get error "response")
                                   (opt_get error "message")]])
           (page w))
  end.
Proof.
  destruct (backend r) as [response|error] eqn:Hb.
  - unfold await. by rewrite Hb.
  - intros Hu Hn. unfold await. rewrite Hb. by apply on_rejected_object.
Qed.

Lemma interceptor_keeps_outcome_witness :
  await offline alertService.getStats (mkWorld [] Dashboard.initial) =
    (Throw (JObj [(lit "message", JStr (lit "Network Error"))]),
     mkWorld [[JStr (lit "API Error:"); JStr (lit "Network Error")]] Dashboard.initial).
Proof.
  apply (interceptor_keeps_outcome offline alertService.getStats
           (mkWorld [] Dashboard.initial)); discriminate.
Defined.

(** Whatever the error, a failed request is a rejection that leaves the
    page's state alone and only adds to the console. *)
Lemma await_rejected_log {S} backend (r : Request) (error : JsVal) (w : World S) :
  backend r = Throw error →
  ∃ e extra, await backend r w = (Throw e, mkWorld (console w ++ extra) (page w)).
Proof.
  intros H. unfold await. rewrite H.
  unfold on_rejected, mbind, M_bind, mret, M_ret, lift, console_error, throw.
  destruct w as [log0 st]. cbn [console page].
  destruct (get error "response") as [resp|e1];
    [|exists e1, []; by rewrite app_nil_r].
  destruct (truthy resp); [simpl; eauto|].
  destruct (get error "message") as [m|e2]; simpl; [eauto|].
  exists e2, []. by rewrite app_nil_r.
Qed.

(** [fetchAlerts] against any backend and from any state: it ends normally,
    loading is false, the console only grows, and the alerts held are the
    value read from the body when it is truthy, the empty array when it is
    falsy, and the mock alerts when the request or a read failed.  The
    state is therefore never null, undefined or otherwise falsy. *)
Theorem fetchAlerts_outcome backend (w : World Alerts.State) :
  ∃ log held,
    Alerts.fetchAlerts backend w = (Normal (), mkWorld log (Alerts.mkState held false)) ∧
    console w `prefix_of` log ∧
    held = match Alerts.body_alerts backend with
           | Some found => if truthy found then found else JArr []
           | None => Alerts.mock_alerts
           end ∧
    truthy held = true.
Proof.
  unfold Alerts.body_alerts, Alerts.fetchAlerts, try_catch_finally, mbind, M_bind, lift.
  destruct (backend (alertService.getAlerts JUndefined)) as [response|error] eqn:Hb.
  - rewrite (await_fulfilled _ _ _ _ Hb). cbv beta iota.
    destruct (get response "data") as [data|e1]; cbv beta iota.
    + destruct (get data "alerts") as [found|e2]; cbv beta iota.
      * exists (console w), (or_else found (JArr [])). destruct w as [log0 st].
        unfold or_else. split; [done|]. split; [done|]. split; [done|].
        by destruct (truthy found) eqn:Ht.
      * exists (console w ++ [[JStr (lit "Failed to fetch alerts"); e2]]), Alerts.mock_alerts.
        destruct w as [log0 st]. split; [done|]. split; [by apply prefix_app_r|done].
    + exists (console w ++ [[JStr (lit "Failed to fetch alerts"); e1]]), Alerts.mock_alerts.
      destruct w as [log0 st]. split; [done|]. split; [by apply prefix_app_r|done].
  - destruct (await_rejected_log backend _ _ w Hb) as (e & extra & Hw). rewrite Hw.
    exists ((console w ++ extra) ++ [[JStr (lit "Failed to fetch alerts"); e]]), Alerts.mock_alerts.
    split; [done|]. split; [|done]. rewrite <-app_assoc. by apply prefix_app_r.
Qed.

(** [fetchStats] against any backend and from any state: it ends normally,
    loading is false, the console only grows, and the snapshot held is the
    body of the response, whatever it is, or the fallback when the request
    or the read failed. *)
Theorem fetchStats_outcome backend (w : World Dashboard.State) :
  ∃ log,
    Dashboard.fetchStats backend w =
      (Normal (),
       mkWorld log
         (Dashboard.mkState (default Dashboard.fallback_stats (Dashboard.body_stats backend))
            false)) ∧
    console w `prefix_of` log.
Proof.
  unfold Dashboard.body_stats, Dashboard.fetchStats, try_catch_finally, mbind, M_bind, lift.
  destruct (backend alertService.getStats) as [response|error] eqn:Hb.
  - rewrite (await_fulfilled _ _ _ _ Hb). cbv beta iota.
    destruct (get response "data") as [data|e1]; cbv beta iota.
    + exists (console w). by destruct w.
    + exists (console w ++ [[JStr (lit "Failed to fetch stats"); e1]]).
      destruct w as [log0 st]. split; [done|]. by apply prefix_app_r.
  - destruct (await_rejected_log backend _ _ w Hb) as (e & extra & Hw). rewrite Hw.
    exists ((console w ++ extra) ++ [[JStr (lit "Failed to fetch stats"); e]]).
    split; [done|]. rewrite <-app_assoc. by apply prefix_app_r.
Qed.

(** [fetchPlaybooks] against any backend and from any state: it ends
    normally, loading is false, the console only grows, the selection and
    the message boxes are as before, and the playbooks held are the value
    read from the body when it is truthy, the empty array when it is falsy,
    and, with no fallback, the playbooks held before when the request or a
    read failed. *)
Theorem fetchPlaybooks_outcome backend (w : World Playbooks.State) :
  ∃ log,
    Playbooks.fetchPlaybooks backend w =
      (Normal (),
       mkWorld log
         (Playbooks.mkState
            match Playbooks.body_playbooks backend with
            | Some found => if truthy found then found else JArr []
            | None => Playbooks.playbooks (page w)
            end
            false (Playbooks.selectedPlaybook (page w)) (Playbooks.alerted (page w)))) ∧
    console w `prefix_of` log.
Proof.
  unfold Playbooks.body_playbooks, Playbooks.fetchPlaybooks, try_catch_finally,
    mbind, M_bind, lift.
  destruct (backend playbookService.getPlaybooks) as [response|error] eqn:Hb.
  - rewrite (await_fulfilled _ _ _ _ Hb). cbv beta iota.
    destruct (get response "data") as [data|e1]; cbv beta iota.
    + destruct (get data "playbooks") as [found|e2]; cbv beta iota.
      * exists (console w). by destruct w.
      * exists (console w ++ [[JStr (lit "Failed to fetch playbooks"); e2]]).
        destruct w as [log0 st]. split; [done|]. by apply prefix_app_r.
    + exists (console w ++ [[JStr (lit "Failed to fetch playbooks"); e1]]).
      destruct w as [log0 st]. split; [done|]. by apply prefix_app_r.
  - destruct (await_rejected_log backend _ _ w Hb) as (e & extra & Hw). rewrite Hw.
    exists ((console w ++ extra) ++ [[JStr (lit "Failed to fetch playbooks"); e]]).
    split; [done|]. rewrite <-app_assoc. by apply prefix_app_r.
Qed.

(** [handleRunPlaybook] for any id, backend and state: it ends normally
    and shows exactly one message box, and the playbooks, loading and the
    selection are as before.  For an id that does not convert to a string
    the call throws before any request, whatever the backend: the box says
    'Failed to start playbook' and the console has the page's line only.
    For an id that prints, the request of [runPlaybook(id)] is sent, and
    the box says 'Playbook execution started' exactly when it was
    fulfilled. *)
Theorem handleRunPlaybook_outcome backend (id : JsVal) (w : World Playbooks.State) :
  ∃ log box,
    Playbooks.handleRunPlaybook backend id w =
      (Normal (),
       mkWorld log
         (Playbooks.mkState (Playbooks.playbooks (page w)) (Playbooks.loading (page w))
            (Playbooks.selectedPlaybook (page w))
            (Playbooks.alerted (page w) ++ [box]))) ∧
    console w `prefix_of` log ∧
    (box = lit "Playbook execution started" ∨ box = lit "Failed to start playbook") ∧
    (coercible id = false →
     box = lit "Failed to start playbook" ∧
     log = console w ++ [[JStr (lit "Failed to run playbook");
                          TypeError "Cannot convert object to primitive value"]]) ∧
    (printable id = true →
     (box = lit "Playbook execution started" ↔
      ∃ response, backend (playbookService.runPlaybook id) = Normal response)).
Proof.
  unfold Playbooks.handleRunPlaybook, try_catch_finally, mbind, M_bind, lift.
  unfold invoke, to_primitive.
  destruct (coercible id) eqn:Hid; cbn [cbind request_of].
  - destruct (backend (playbookService.runPlaybook id)) as [response|error] eqn:Hb.
    + rewrite (await_fulfilled _ _ _ _ Hb).
      exists (console w), (lit "Playbook execution started").
      split; [by destruct w|]. split; [done|]. split; [by left|].
      split; [done|]. intros _. split; [by eexists|done].
    + destruct (await_rejected_log backend _ _ w Hb) as (e & extra & Hw). rewrite Hw.
      exists ((console w ++ extra) ++ [[JStr (lit "Failed to run playbook"); e]]),
        (lit "Failed to start playbook").
      split; [done|]. split; [rewrite <-app_assoc; by apply prefix_app_r|].
      split; [by right|]. split; [done|].
      intros _. split; [discriminate|]. intros [response Hr]. discriminate Hr.
  - exists (console w ++ [[JStr (lit "Failed to run playbook");
                           TypeError "Cannot convert object to primitive value"]]),
      (lit "Failed to start playbook").
    split; [by destruct w|]. split; [by apply prefix_app_r|].
    split; [by right|]. split; [done|].
    intros Hp%printable_coercible. congruence.
Qed.

Lemma handleRunPlaybook_outcome_witness :
  Playbooks.alerted
    (page (Playbooks.handleRunPlaybook empty_bodies (JNum 4)
             (mkWorld [] Playbooks.initial)).2) = [lit "Playbook execution started"] ∧
  Playbooks.alerted
    (page (Playbooks.handleRunPlaybook empty_bodies unprintable_id
             (mkWorld [] Playbooks.initial)).2) = [lit "Failed to start playbook"].
Proof.
  split.
  - destruct (handleRunPlaybook_outcome empty_bodies (JNum 4) (mkWorld [] Playbooks.initial))
      as (log & box & Hrun & _ & _ & _ & Hbox).
    rewrite Hrun. cbn [snd page Playbooks.alerted Playbooks.initial app]. f_equal.
    apply Hbox; [reflexivity|]. by eexists.
  - destruct (handleRunPlaybook_outcome empty_bodies unprintable_id
                (mkWorld [] Playbooks.initial))
      as (log & box & Hrun & _ & _ & Hbox & _).
    rewrite Hrun. cbn [snd page Playbooks.alerted Playbooks.initial app]. f_equal.
    apply Hbox. reflexivity.
Defined.

End Handlers.

(** ** What the pages render *)

Section Rendering.
Import JS Api Fixtures.

Lemma get_opt_get (v : JsVal) (k : string) :
  v ≠ JUndefined → v ≠ JNull → get v k = Normal (opt_get v k).
Proof. by destruct v. Qed.

Lemma react_child_renderable (v : JsVal) : renderable v = true → react_child v = Normal v.
Proof. unfold react_child. by intros ->. Qed.

Lemma react_child_refused (v : JsVal) : renderable v = false → ∃ e, react_child v = Throw e.
Proof. unfold react_child. intros ->. by eexists. Qed.

Lemma react_key_coercible (v : JsVal) : coercible v = true → react_key v = Normal v.
Proof. unfold react_key, to_primitive. intros ->. by destruct v. Qed.

Lemma new_Date_coercible (v : JsVal) : coercible v = true → new_Date v = Normal v.
Proof. unfold new_Date, to_primitive. by intros ->. Qed.

(** A mapped list renders when every element does, element by element and
    in order. *)
Lemma cmap_all {A B} (f : A → completion B) (g : A → B) (l : list A) :
  Forall (λ x, f x = Normal (g x)) l → cmap f l = Normal (g <$> l).
Proof.
  induction 1 as [|x l Hx _ IH]; [done|].
  cbn [cmap]. by rewrite Hx, IH.
Qed.

(** One element that throws makes the whole map throw. *)
Lemma cmap_one_throws {A B} (f : A → completion B) (l : list A) (x : A) :
  x ∈ l → (∃ e, f x = Throw e) → ∃ e, cmap f l = Throw e.
Proof.
  intros Hin [e He]. induction Hin as [x l|x y l _ IH]; cbn [cmap].
  - rewrite He. by eexists.
  - destruct (f y) as [b|e']; [|by eexists].
    destruct (IH He) as [e'' ->]. by eexists.
Qed.

Lemma render_row_showable (alert : JsVal) :
  Alerts.showable alert → Alerts.render_row alert = Normal (Alerts.row_of alert).
Proof.
  intros (fields & s & -> & Hsev & Hid & Hdate & Hcells).
  assert (∀ k, get (JObj fields) k = Normal (opt_get (JObj fields) k)) as Hget by done.
  assert (∀ k, k ∈ ["title"; "source"; "status"] →
               react_child (opt_get (JObj fields) k) = Normal (opt_get (JObj fields) k)) as Hcell.
  { intros k Hk. by apply react_child_renderable, Hcells. }
  unfold Alerts.render_row, Alerts.row_of.
  assert (opt_get (JObj fields) "severity" = JStr s) as Hs
    by (rewrite Hget in Hsev; by injection Hsev).
  rewrite !Hget, Hs. cbn [cbind Alerts.getSeverityColor].
  rewrite (new_Date_coercible _ Hdate), (react_key_coercible _ Hid). cbn [cbind].
  rewrite (react_child_renderable (JStr s)) by done. cbn [cbind].
  rewrite !Hcell by set_solver. done.
Qed.

Lemma severity_class_cases (s : jsstring) :
  Alerts.severity_class s ∈
    [Alerts.class_critical; Alerts.class_high; Alerts.class_medium; Alerts.class_default].
Proof. unfold Alerts.severity_class. repeat case_decide; set_solver. Qed.

(** When every alert held is showable (an object with a string severity,
    an id and a creation time that convert to a primitive, and a title, a
    source and a status that React draws), the table renders one row per
    alert, in the order of the alerts: the row's key is the alert's id, its
    cells are the alert's fields, and its badge has one of the four class
    strings, chosen by the alert's severity. *)
Theorem alerts_table_rows (items : list JsVal) (loading : bool) :
  Forall Alerts.showable items →
  ∃ rows,
    Alerts.render (Alerts.mkState (JArr items) loading) = Normal rows ∧
    length rows = length items ∧
    Alerts.row_key <$> rows = (λ a, opt_get a "id") <$> items ∧
    Alerts.row_title <$> rows = (λ a, opt_get a "title") <$> items ∧
    Forall2 (λ a row, ∃ s, opt_get a "severity" = JStr s ∧
                           Alerts.row_class row = Alerts.severity_class s) items rows ∧
    Forall (λ row, Alerts.row_class row ∈
              [Alerts.class_critical; Alerts.class_high;
               Alerts.class_medium; Alerts.class_default]) rows.
Proof.
  intros Hall. exists (Alerts.row_of <$> items).
  split.
  { cbn [Alerts.render Alerts.alerts]. apply cmap_all.
    eapply Forall_impl; [exact Hall|]. apply render_row_showable. }
  split; [by rewrite length_fmap|].
  split; [by rewrite <-list_fmap_compose|].
  split; [by rewrite <-list_fmap_compose|].
  assert (∀ a, Alerts.showable a →
               ∃ s, opt_get a "severity" = JStr s ∧
                    Alerts.row_class (Alerts.row_of a) = Alerts.severity_class s) as Hrow.
  { intros a (fields & s & -> & Hsev & _). exists s.
    assert (opt_get (JObj fields) "severity" = JStr s) as Hs by (by injection Hsev).
    split; [done|]. unfold Alerts.row_of. cbn [Alerts.row_class]. by rewrite Hs. }
  split.
  - apply Forall2_fmap_r, Forall_Forall2_diag.
    eapply Forall_impl; [exact Hall|]. exact Hrow.
  - apply Forall_fmap. eapply Forall_impl; [exact Hall|].
    intros a Ha. destruct (Hrow a Ha) as (s & _ & Hc). unfold compose.
    rewrite Hc. apply severity_class_cases.
Qed.

Lemma alerts_table_rows_witness :
  ∃ rows,
    Alerts.render (Alerts.mkState Alerts.mock_alerts true) = Normal rows ∧
    length rows = 3 ∧
    Alerts.row_key <$> rows = [JNum 1; JNum 2; JNum 3].
Proof.
  destruct (alerts_table_rows
              [Alerts.mock_alert 1 "Suspicious Login Attempt" "high" "open" "Auth Service"
                 "2023-10-27T10:30:00Z";
               Alerts.mock_alert 2 "Port Scan Detected" "medium" "investigating" "Firewall"
                 "2023-10-27T09:15:00Z";
               Alerts.mock_alert 3 "Malware Signature Match" "critical" "open" "EDR"
                 "2023-10-27T08:45:00Z"] true)
    as (rows & Hr & Hlen & Hkeys & _).
  - repeat constructor.
    all: eexists _, _; split; [reflexivity|]; split; [reflexivity|].
    all: split; [reflexivity|]; split; [reflexivity|].
    all: intros k Hk; repeat (apply elem_of_cons in Hk as [->|Hk]); try reflexivity.
    all: by apply elem_of_nil in Hk.
  - exists rows. split; [exact Hr|]. split; [exact Hlen|exact Hkeys].
Defined.

(** One alert whose severity is not a string takes the whole table down:
    the render throws, whatever the other alerts are. *)
Theorem alerts_table_needs_severity (items : list JsVal) (alert : JsVal) (loading : bool) :
  alert ∈ items →
  (∀ s, get alert "severity" ≠ Normal (JStr s)) →
  ∃ e, Alerts.render (Alerts.mkState (JArr items) loading) = Throw e.
Proof.
  intros Hin Hsev. cbn [Alerts.render Alerts.alerts].
  apply (cmap_one_throws _ _ alert Hin).
  unfold Alerts.render_row.
  destruct (get alert "id") as [key|e]; cbn [cbind]; [|eauto].
  destruct (get alert "severity") as [severity|e] eqn:Hs; cbn [cbind]; [|eauto].
  destruct severity; cbn [Alerts.getSeverityColor cbind]; eauto.
  by destruct (Hsev s).
Qed.

Lemma alerts_table_needs_severity_witness :
  ∃ e, Alerts.render
         (Alerts.mkState
            (JArr [Alerts.mock_alert 1 "Port Scan Detected" "medium" "open" "Firewall" "";
                   JObj [(lit "id", JNum 2); (lit "title", JStr (lit "No severity"))]])
            false) = Throw e.
Proof.
  apply (alerts_table_needs_severity _
           (JObj [(lit "id", JNum 2); (lit "title", JStr (lit "No severity"))])).
  - apply elem_of_cons. right. apply elem_of_cons. by left.
  - intros s. discriminate.
Defined.

(** From the response to the table: when the body of a fulfilled
    [GET /alerts] holds an array of showable alerts, then after
    [fetchAlerts], from any state, the table shows exactly these alerts,
    one row each and in the order of the response, and nothing was logged. *)
Theorem alerts_page_shows_response
    backend (response data : JsVal) (items : list JsVal) (w : World Alerts.State) :
  backend (alertService.getAlerts JUndefined) = Normal response →
  get response "data" = Normal data →
  get data "alerts" = Normal (JArr items) →
  Forall Alerts.showable items →
  ∃ rows,
    Alerts.render (page (Alerts.fetchAlerts backend w).2) = Normal rows ∧
    Alerts.row_key <$> rows = (λ a, opt_get a "id") <$> items ∧
    Alerts.row_title <$> rows = (λ a, opt_get a "title") <$> items ∧
    console (Alerts.fetchAlerts backend w).2 = console w.
Proof.
  intros Hb Hd Ha Hall.
  assert (Alerts.fetchAlerts backend w =
          (Normal (), mkWorld (console w) (Alerts.mkState (JArr items) false))) as ->.
  { unfold Alerts.fetchAlerts, try_catch_finally, mbind, M_bind, lift.
    rewrite (await_fulfilled _ _ _ _ Hb). cbv beta iota. rewrite Hd. cbv beta iota.
    rewrite Ha. by destruct w. }
  exists (Alerts.row_of <$> items). cbn [snd page console].
  split.
  { cbn [Alerts.render Alerts.alerts]. apply cmap_all.
    eapply Forall_impl; [exact Hall|]. apply render_row_showable. }
  split; [by rewrite <-list_fmap_compose|].
  split; [by rewrite <-list_fmap_compose|done].
Qed.

Lemma alerts_page_shows_response_witness :
  ∃ rows,
    Alerts.render
      (page (Alerts.fetchAlerts
               (λ _, Normal (JObj [(lit "data", JObj [(lit "alerts", Alerts.mock_alerts)])]))
               (mkWorld [] Alerts.initial)).2) = Normal rows ∧
    Alerts.row_key <$> rows = [JNum 1; JNum 2; JNum 3].
Proof.
  destruct (alerts_page_shows_response
              (λ _, Normal (JObj [(lit "data", JObj [(lit "alerts", Alerts.mock_alerts)])]))
              (JObj [(lit "data", JObj [(lit "alerts", Alerts.mock_alerts)])])
              (JObj [(lit "alerts", Alerts.mock_alerts)])
              [Alerts.mock_alert 1 "Suspicious Login Attempt" "high" "open" "Auth Service"
                 "2023-10-27T10:30:00Z";
               Alerts.mock_alert 2 "Port Scan Detected" "medium" "investigating" "Firewall"
                 "2023-10-27T09:15:00Z";
               Alerts.mock_alert 3 "Malware Signature Match" "critical" "open" "EDR"
                 "2023-10-27T08:45:00Z"]
              (mkWorld [] Alerts.initial) eq_refl eq_refl eq_refl)
    as (rows & Hr & Hkeys & _).
  - repeat constructor.
    all: eexists _, _; split; [reflexivity|]; split; [reflexivity|].
    all: split; [reflexivity|]; split; [reflexivity|].
    all: intros k Hk; repeat (apply elem_of_cons in Hk as [->|Hk]); try reflexivity.
    all: by apply elem_of_nil in Hk.
  - exists rows. split; [exact Hr|exact Hkeys].
Defined.

Lemma cbind_Normal {A B} (c : completion A) (k : A → completion B) (b : B) :
  cbind c k = Normal b → ∃ a, c = Normal a ∧ k a = Normal b.
Proof. destruct c as [a|e]; [by exists a|discriminate]. Qed.

Lemma get_Normal (v x : JsVal) (k : string) : get v k = Normal x → x = opt_get v k.
Proof. destruct v; cbn [get opt_get]; intros H; by simplify_eq. Qed.

Lemma react_child_Normal (v x : JsVal) : react_child v = Normal x → x = v.
Proof. unfold react_child. destruct (renderable v); intros H; by simplify_eq. Qed.

(** A mapped list that rendered did so element by element, in order. *)
Lemma cmap_Normal {A B} (f : A → completion B) (l : list A) (ys : list B) :
  cmap f l = Normal ys → Forall2 (λ x y, f x = Normal y) l ys.
Proof.
  revert ys. induction l as [|x l IH]; intros ys H; cbn [cmap] in H.
  - injection H as <-. constructor.
  - apply cbind_Normal in H as (y & Hy & H).
    apply cbind_Normal in H as (ys' & Hys & H). injection H as <-.
    constructor; [done|by apply IH].
Qed.

(** A card's value is the counter when it is truthy and the number 0
    otherwise: never null, undefined, false or the empty string. *)
Lemma or_else_zero (v : JsVal) :
  or_else v (JNum 0) = JNum 0 ∨ truthy (or_else v (JNum 0)) = true.
Proof. unfold or_else. destruct (truthy v) eqn:Hv; auto. Qed.

(** The Dashboard for any state.  While loading it shows the loading line
    and reads no statistics.  Afterwards each card is given the counter
    when it is truthy and the number 0 otherwise, so never a null,
    undefined, false or empty value; the page renders the four values as
    they are when React draws each of them, and throws when one of them
    is an object or an array that holds one. *)
Theorem dashboard_render_outcome (st : Dashboard.State) :
  (Dashboard.loading st = true → Dashboard.render st = Normal Dashboard.LoadingMetrics) ∧
  Forall (λ v, v = JNum 0 ∨ truthy v = true) (Dashboard.card_values (Dashboard.stats st)) ∧
  (Dashboard.loading st = false →
   Forall (λ v, renderable v = true) (Dashboard.card_values (Dashboard.stats st)) →
   Dashboard.render st =
     Normal (Dashboard.KeyMetrics
               (Dashboard.mkMetrics
                  (Dashboard.total_alerts_value (Dashboard.stats st))
                  (Dashboard.critical_value (Dashboard.stats st))
                  (Dashboard.active_incidents_value (Dashboard.stats st))
                  (Dashboard.resolved_value (Dashboard.stats st))))) ∧
  (Dashboard.loading st = false →
   Exists (λ v, renderable v = false) (Dashboard.card_values (Dashboard.stats st)) →
   ∃ e, Dashboard.render st = Throw e).
Proof.
  destruct st as [stats loading]. cbn [Dashboard.loading Dashboard.stats].
  split; [by intros ->|]. split.
  { unfold Dashboard.card_values, Dashboard.total_alerts_value, Dashboard.critical_value,
      Dashboard.active_incidents_value, Dashboard.resolved_value.
    repeat (apply Forall_cons_2; [apply or_else_zero|]). apply Forall_nil_2. }
  split.
  - intros -> Hall. unfold Dashboard.card_values in Hall.
    apply Forall_cons in Hall as [H1 Hall]. apply Forall_cons in Hall as [H2 Hall].
    apply Forall_cons in Hall as [H3 Hall]. apply Forall_cons in Hall as [H4 _].
    unfold Dashboard.render. cbn [Dashboard.loading Dashboard.stats].
    by rewrite !react_child_renderable.
  - intros -> Hex. unfold Dashboard.card_values in Hex.
    unfold Dashboard.render. cbn [Dashboard.loading Dashboard.stats].
    destruct (react_child (Dashboard.total_alerts_value stats)) as [v1|e1] eqn:E1;
      [|by eexists].
    destruct (react_child (Dashboard.critical_value stats)) as [v2|e2] eqn:E2;
      [|by eexists].
    destruct (react_child (Dashboard.active_incidents_value stats)) as [v3|e3] eqn:E3;
      [|by eexists].
    destruct (react_child (Dashboard.resolved_value stats)) as [v4|e4] eqn:E4;
      [|by eexists].
    exfalso.
    repeat (apply Exists_cons in Hex as [Hex|Hex];
            [apply react_child_refused in Hex as [e He]; congruence|]).
    by apply Exists_nil in Hex.
Qed.

Lemma dashboard_render_outcome_witness :
  Dashboard.render Dashboard.initial = Normal Dashboard.LoadingMetrics ∧
  Dashboard.render (Dashboard.mkState (JObj [(lit "total_alerts", JStr (lit "12"))]) false) =
    Normal (Dashboard.KeyMetrics
              (Dashboard.mkMetrics (JStr (lit "12")) (JNum 0) (JNum 0) (JNum 0))) ∧
  ∃ e, Dashboard.render
         (Dashboard.mkState (JObj [(lit "active_incidents", JArr [JObj []])]) false) = Throw e.
Proof.
  split; [|split].
  - by apply (dashboard_render_outcome Dashboard.initial).
  - apply (dashboard_render_outcome
             (Dashboard.mkState (JObj [(lit "total_alerts", JStr (lit "12"))]) false));
      [done|]. by repeat constructor.
  - apply (dashboard_render_outcome
             (Dashboard.mkState (JObj [(lit "active_incidents", JArr [JObj []])]) false));
      [done|]. right. right. by left.
Defined.

Lemma render_card_showable (playbook : JsVal) :
  Playbooks.showable playbook → Playbooks.render_card playbook = Normal (Playbooks.card_of playbook).
Proof.
  intros (Hu & Hn & Hid & Hdate & Hcells).
  assert (∀ k, k ∈ ["name"; "description"] →
               react_child (opt_get playbook k) = Normal (opt_get playbook k)) as Hcell.
  { intros k Hk. by apply react_child_renderable, Hcells. }
  unfold Playbooks.render_card, Playbooks.card_of.
  rewrite !get_opt_get by done. cbn [cbind].
  rewrite (react_key_coercible _ Hid).
  destruct (truthy (opt_get playbook "last_executed_at"));
    [rewrite (new_Date_coercible _ Hdate)|]; cbn [cbind];
    rewrite !Hcell by set_solver; done.
Qed.

(** When every playbook held is showable (not null or undefined, with an
    id and a last execution time that convert to a primitive, and a name
    and a description that React draws), the grid renders one card per
    playbook, in order.  A card is ACTIVE exactly when the playbook's
    [active] is truthy, so a playbook without the field is INACTIVE, and
    its last run says 'Never' exactly when [last_executed_at] is missing or
    falsy. *)
Theorem playbooks_grid_cards (st : Playbooks.State) (items : list JsVal) :
  Playbooks.playbooks st = JArr items →
  Forall Playbooks.showable items →
  ∃ cards,
    Playbooks.render_grid st = Normal cards ∧
    length cards = length items ∧
    Forall2 (λ p card,
               Playbooks.card_key card = opt_get p "id" ∧
               Playbooks.card_name card = opt_get p "name" ∧
               Playbooks.card_active card = truthy (opt_get p "active") ∧
               (opt_get p "active" = JUndefined → Playbooks.card_active card = false) ∧
               (Playbooks.card_last_run card = None ↔
                truthy (opt_get p "last_executed_at") = false)) items cards.
Proof.
  intros Hst Hall. exists (Playbooks.card_of <$> items).
  split.
  { unfold Playbooks.render_grid. rewrite Hst. apply cmap_all.
    eapply Forall_impl; [exact Hall|]. apply render_card_showable. }
  split; [by rewrite length_fmap|].
  apply Forall2_fmap_r, Forall_Forall2_diag, Forall_forall. intros p _.
  unfold Playbooks.card_of. cbn [Playbooks.card_key Playbooks.card_name Playbooks.card_active
                         Playbooks.card_last_run].
  split; [done|]. split; [done|]. split; [done|]. split; [by intros ->|].
  by destruct (truthy (opt_get p "last_executed_at")).
Qed.

Lemma playbooks_grid_cards_witness :
  ∃ cards,
    Playbooks.render_grid
      (Playbooks.mkState (JArr [JObj [(lit "id", JNum 4); (lit "name", JStr (lit "Contain"))]])
         false JNull []) = Normal cards ∧
    Playbooks.card_active <$> cards = [false] ∧
    Playbooks.card_last_run <$> cards = [None].
Proof.
  destruct (playbooks_grid_cards
              (Playbooks.mkState
                 (JArr [JObj [(lit "id", JNum 4); (lit "name", JStr (lit "Contain"))]])
                 false JNull [])
              [JObj [(lit "id", JNum 4); (lit "name", JStr (lit "Contain"))]] eq_refl)
    as (cards & Hr & _ & Hcards).
  - repeat constructor; try discriminate.
    intros k Hk. repeat (apply elem_of_cons in Hk as [->|Hk]); try reflexivity.
    by apply elem_of_nil in Hk.
  - exists cards. split; [exact Hr|].
    apply Forall2_cons_inv_l in Hcards as (card & rest & (_ & _ & _ & Hact & Hlast) & Hnil & ->).
    apply Forall2_nil_inv_l in Hnil as ->.
    split; cbn [fmap list_fmap].
    + by rewrite Hact.
    + f_equal. by apply Hlast.
Defined.

(** Selecting a playbook whose [steps] is not an array breaks the page:
    with such a value in [selectedPlaybook] the render throws, whatever the
    grid holds. *)
Theorem details_need_steps (st : Playbooks.State) :
  truthy (Playbooks.selectedPlaybook st) = true →
  (∀ items, get (Playbooks.selectedPlaybook st) "steps" ≠ Normal (JArr items)) →
  ∃ e, Playbooks.render st = Throw e.
Proof.
  intros Hsel Hsteps. unfold Playbooks.render.
  destruct (Playbooks.render_grid st) as [cards|e]; [|by eexists]. cbn [cbind].
  unfold Playbooks.render_overlay. rewrite Hsel.
  unfold Playbooks.render_details.
  repeat match goal with
         | |- context [cbind ?c _] =>
             lazymatch c with
             | get _ "steps" => fail
             | cbind _ _ => fail
             | _ => destruct c; cbn [cbind]; [|by eexists]
             end
         end.
  destruct (get (Playbooks.selectedPlaybook st) "steps") as [steps|e] eqn:Hs;
    cbn [cbind]; [|by eexists].
  destruct steps; cbn [cbind]; try by eexists.
  by destruct (Hsteps items).
Qed.

Lemma details_need_steps_witness :
  ∃ e, Playbooks.render
         (Playbooks.mkState (JArr []) false
            (JObj [(lit "id", JNum 4); (lit "name", JStr (lit "Contain"))]) []) = Throw e.
Proof.
  apply details_need_steps; [reflexivity|]. intros items. discriminate.
Defined.

(** When the overlay renders, it shows the selected playbook's name, the
    trigger condition or, when that is missing or falsy, 'Manual Trigger
    Only', and one entry per step of the [steps] array, in order, with the
    step's own order, action and description. *)
Theorem details_shown (selected : JsVal) (d : Playbooks.Details) :
  Playbooks.render_details selected = Normal d →
  Playbooks.details_name d = opt_get selected "name" ∧
  Playbooks.details_trigger d =
    (if truthy (opt_get selected "trigger_condition")
     then opt_get selected "trigger_condition"
     else JStr (lit "Manual Trigger Only")) ∧
  ∃ items,
    opt_get selected "steps" = JArr items ∧
    Forall2 (λ step view,
               Playbooks.view_order view = opt_get step "order" ∧
               Playbooks.view_action view = opt_get step "action" ∧
               Playbooks.view_description view = opt_get step "description")
      items (Playbooks.details_steps d).
Proof.
  intros H. unfold Playbooks.render_details in H.
  repeat (apply cbind_Normal in H as (? & ? & H)).
  repeat match goal with
         | Hg : get _ _ = Normal _ |- _ => apply get_Normal in Hg; subst
         | Hr : react_child _ = Normal _ |- _ => apply react_child_Normal in Hr; subst
         end.
  injection H as <-. cbn [Playbooks.details_name Playbooks.details_trigger
                           Playbooks.details_steps].
  split; [done|]. split; [done|].
  destruct (opt_get selected "steps") as [| |b|z|s|items|fields] eqn:Hs; try discriminate.
  exists items. split; [done|].
  match goal with Hc : cmap _ _ = Normal _ |- _ => apply cmap_Normal in Hc end.
  eapply Forall2_impl; [eassumption|]. intros step view Hstep.
  unfold Playbooks.render_step in Hstep.
  repeat (apply cbind_Normal in Hstep as (? & ? & Hstep)).
  repeat match goal with
         | Hg : get _ _ = Normal _ |- _ => apply get_Normal in Hg; subst
         | Hr : react_child _ = Normal _ |- _ => apply react_child_Normal in Hr; subst
         end.
  by injection Hstep as <-.
Qed.

Lemma details_shown_witness :
  ∃ d,
    Playbooks.render_details
      (JObj [(lit "name", JStr (lit "Contain"));
             (lit "steps", JArr [JObj [(lit "order", JNum 1);
                                       (lit "action", JStr (lit "quarantine-host"))]])])
    = Normal d ∧
    Playbooks.details_trigger d = JStr (lit "Manual Trigger Only") ∧
    Playbooks.view_order <$> Playbooks.details_steps d = [JNum 1].
Proof.
  eexists. split; [reflexivity|].
  destruct (details_shown
              (JObj [(lit "name", JStr (lit "Contain"));
                     (lit "steps", JArr [JObj [(lit "order", JNum 1);
                                               (lit "action", JStr (lit "quarantine-host"))]])])
              _ eq_refl) as (_ & Htrigger & _).
  split; [exact Htrigger|reflexivity].
Defined.

End Rendering.

(** ** The sidebar *)

Section Sidebar.
Import JS MainLayout.

Lemma startsWith_app (s p : jsstring) : startsWith s p = true ↔ ∃ rest, s = p ++ rest.
Proof.
  revert s. induction p as [|c p IH]; intros s; cbn [startsWith].
  - destruct s; (split; [intros _; by eexists|done]).
  - destruct s as [|d s].
    + split; [done|]. intros [rest H]. discriminate H.
    + change (startsWith (d :: s) (c :: p)) with ((c =? d)%N && startsWith s p).
      rewrite andb_true_iff, N.eqb_eq, IH. split.
      * intros [-> [rest ->]]. by exists rest.
      * intros [rest H]. injection H as -> ->. eauto.
Qed.

Lemma nav_targets (pathname : jsstring) (collapsed : bool) :
  active_targets pathname collapsed =
    (if bool_decide (pathname = lit "/") then [lit "/"] else []) ++
    (if startsWith pathname (lit "/alerts") then [lit "/alerts"] else []) ++
    (if startsWith pathname (lit "/playbooks") then [lit "/playbooks"] else []) ++
    (if startsWith pathname (lit "/settings") then [lit "/settings"] else []).
Proof.
  unfold active_targets, nav, SidebarItem.
  destruct (bool_decide (pathname = lit "/")), (startsWith pathname (lit "/alerts")),
    (startsWith pathname (lit "/playbooks")), (startsWith pathname (lit "/settings"));
    reflexivity.
Qed.

(** For every pathname at most one sidebar item is drawn active.  On '/'
    it is Dashboard; on '/alerts', '/playbooks' and '/settings' and on
    every path that continues one of them it is that section's item; on a
    path that starts with none of the three and is not '/', no item is
    active. *)
(** Membership in a list that is written out. *)
Local Ltac listed :=
  repeat first [apply list_elem_of_here | apply list_elem_of_further].

Theorem sidebar_one_active (pathname : jsstring) (collapsed : bool) :
  length (active_targets pathname collapsed) ≤ 1 ∧
  (pathname = lit "/" → active_targets pathname collapsed = [lit "/"]) ∧
  (∀ section rest,
     section ∈ [lit "/alerts"; lit "/playbooks"; lit "/settings"] →
     pathname = section ++ rest →
     active_targets pathname collapsed = [section]) ∧
  (pathname ≠ lit "/" →
   (∀ section, section ∈ [lit "/alerts"; lit "/playbooks"; lit "/settings"] →
               startsWith pathname section = false) →
   active_targets pathname collapsed = []).
Proof.
  rewrite nav_targets.
  assert (∀ section rest,
            section ∈ [lit "/alerts"; lit "/playbooks"; lit "/settings"] →
            pathname = section ++ rest →
            bool_decide (pathname = lit "/") = false ∧
            startsWith pathname (lit "/alerts") = bool_decide (section = lit "/alerts") ∧
            startsWith pathname (lit "/playbooks") = bool_decide (section = lit "/playbooks") ∧
            startsWith pathname (lit "/settings") = bool_decide (section = lit "/settings"))
    as Hsection.
  { intros section rest Hsec ->.
    assert (∀ p q r, startsWith (p ++ r) q = true → ∃ r', p ++ r = q ++ r') as Hsw
      by (intros p q r H; by apply startsWith_app).
    repeat (apply elem_of_cons in Hsec as [->|Hsec]); [..|by apply elem_of_nil in Hsec].
    all: split; [apply bool_decide_eq_false; intros H; vm_compute in H; discriminate H|].
    all: repeat split.
    all: first
      [ rewrite bool_decide_eq_true_2 by done; apply startsWith_app; by eexists
      | rewrite bool_decide_eq_false_2 by (intros H; vm_compute in H; discriminate H);
        apply not_true_is_false; intros H; apply Hsw in H as [r' H];
        vm_compute in H; discriminate H ]. }
  split; [|split; [|split]].
  - destruct (bool_decide (pathname = lit "/")) eqn:Hroot.
    + apply bool_decide_eq_true in Hroot as ->. by vm_compute.
    + destruct (startsWith pathname (lit "/alerts")) eqn:Ha.
      { apply startsWith_app in Ha as [rest Ha].
        destruct (Hsection (lit "/alerts") rest) as (_ & _ & -> & ->);
          [listed|done|]. by vm_compute. }
      destruct (startsWith pathname (lit "/playbooks")) eqn:Hp.
      { apply startsWith_app in Hp as [rest Hp].
        destruct (Hsection (lit "/playbooks") rest) as (_ & _ & _ & ->);
          [listed|done|]. by vm_compute. }
      destruct (startsWith pathname (lit "/settings")); cbn; lia.
  - intros ->. by vm_compute.
  - intros section rest Hsec Hpath.
    destruct (Hsection section rest Hsec Hpath) as (-> & -> & -> & ->).
    repeat (apply elem_of_cons in Hsec as [->|Hsec]); [..|by apply elem_of_nil in Hsec];
      by vm_compute.
  - intros Hroot Hnone. rewrite bool_decide_eq_false_2 by done.
    rewrite !Hnone by listed. done.
Qed.

Lemma sidebar_one_active_witness :
  active_targets (lit "/") false = [lit "/"] ∧
  active_targets (lit "/alerts/42") true = [lit "/alerts"] ∧
  active_targets (lit "/reports") false = [].
Proof.
  split; [|split].
  - by apply (sidebar_one_active (lit "/") false).
  - apply (sidebar_one_active (lit "/alerts/42") true) with (rest := lit "/42");
      [listed|reflexivity].
  - apply (sidebar_one_active (lit "/reports") false).
    + intros H. vm_compute in H. discriminate H.
    + intros section Hsec.
      repeat (apply elem_of_cons in Hsec as [->|Hsec]); [..|by apply elem_of_nil in Hsec];
        reflexivity.
Defined.

End Sidebar.

(** ** The urls of the client *)

Section Urls.
Import JS Api.

Lemma lit_cons (c : Ascii.ascii) (rest : string) :
  lit (String c rest) = Ascii.N_of_ascii c :: lit rest.
Proof. done. Qed.

Lemma lit_inj (a b : string) : lit a = lit b → a = b.
Proof.
  revert b. induction a as [|c a IH]; intros [|d b] H; try done.
  rewrite !lit_cons in H. injection H as Hc Hrest.
  f_equal; [|by apply IH].
  by rewrite <-(Ascii.ascii_N_embedding c), <-(Ascii.ascii_N_embedding d), Hc.
Qed.

Lemma pretty_N_char_digit (k : N) : (48 ≤ Ascii.N_of_ascii (pretty_N_char k) ≤ 57)%N.
Proof. unfold pretty_N_char. repeat case_match; vm_compute; split; discriminate. Qed.

Lemma pretty_N_go_head (x : N) (s : string) :
  (0 < x)%N →
  ∃ c rest, pretty_N_go x s = String c rest ∧ (48 ≤ Ascii.N_of_ascii c ≤ 57)%N.
Proof.
  revert s. induction (N.lt_wf_0 x) as [x _ IH]; intros s Hx.
  rewrite pretty_N_go_step by done.
  destruct (decide (x `div` 10 = 0)%N) as [Hz|Hz].
  - rewrite Hz, pretty_N_go_0. eexists _, _. split; [done|]. apply pretty_N_char_digit.
  - apply IH; [by apply N.div_lt|by apply N.neq_0_lt_0].
Qed.

(** A number prints with a digit or a minus sign first. *)
Lemma ToString_number_head (z : Z) :
  ∃ c rest, ToString (JNum z) = c :: rest ∧ (c = 45 ∨ 48 ≤ c ≤ 57)%N.
Proof.
  cbn [ToString]. destruct z as [|p|p].
  - exists 48%N, []. split; [done|]. right. lia.
  - unfold pretty, pretty_Z, pretty, pretty_positive, pretty, pretty_N.
    rewrite decide_False by done.
    destruct (pretty_N_go_head (N.pos p) "") as (c & rest & -> & Hc); [done|].
    rewrite lit_cons. eauto.
  - unfold pretty, pretty_Z. exists 45%N. eexists. split; [|by left]. apply lit_cons.
Qed.

Lemma ToString_number_inj (a b : Z) : ToString (JNum a) = ToString (JNum b) → a = b.
Proof. cbn [ToString]. intros H. by apply (inj pretty), lit_inj. Qed.

(** With numeric ids the client's calls are told apart by verb and url
    alone: two calls that send the same verb to the same url are the same
    operation on the same id (they can differ in the parameters or the
    body they carry). *)
Theorem numeric_ids_tell_calls_apart (c c' : Call) :
  numeric_ids c → numeric_ids c' → target c = target c' →
  without_payload c = without_payload c'.
Proof.
  intros Hc Hc' H. unfold target in H. injection H as Hm Hu.
  destruct c as [|params|id|data|id data| |id|id], c' as [|params'|id'|data'|id' data'| |id'|id'];
    try discriminate Hm; try reflexivity;
    cbn [numeric_ids] in Hc, Hc';
    repeat match goal with
           | Hn : ∃ n, _ = JNum n |- _ => destruct Hn as [? ->]
           end;
    cbn [request_of req_url alertService.getStats alertService.getAlerts
         alertService.getAlert alertService.updateAlert playbookService.getPlaybooks
         playbookService.getPlaybook playbookService.runPlaybook
         alertService.createAlert api_get api_post api_put without_payload] in Hu |- *.
  all: try (repeat match goal with
                   | Hx : context [ToString (JNum ?n)] |- _ =>
                       generalize dependent (ToString (JNum n)); intros
                   end;
            vm_compute in Hu; discriminate Hu).
  all: try (apply app_inv_head in Hu; try apply app_inv_tail in Hu;
            apply ToString_number_inj in Hu; by subst).
  all: destruct (ToString_number_head x) as (d & rest & Hd & Hdigit);
    rewrite Hd in Hu; vm_compute in Hu; injection Hu as Hhead _; lia.
Qed.

Lemma numeric_ids_tell_calls_apart_witness :
  without_payload (CUpdateAlert (JNum 7) (JObj [(lit "status", JStr (lit "resolved"))])) =
  without_payload (CUpdateAlert (JNum 7) JNull).
Proof.
  apply numeric_ids_tell_calls_apart; [by exists 7%Z|by exists 7%Z|reflexivity].
Defined.

(** [getAlert(id)] sends the very request of [getStats] exactly when the id
    prints as 'statistics'; no numeric id does. *)
Theorem getAlert_meets_getStats (id : JsVal) :
  (alertService.getAlert id = alertService.getStats ↔ ToString id = lit "statistics") ∧
  (∀ n, id = JNum n → alertService.getAlert id ≠ alertService.getStats).
Proof.
  assert (alertService.getAlert id = alertService.getStats ↔ ToString id = lit "statistics")
    as Hiff.
  { unfold alertService.getAlert, alertService.getStats, api_get. split.
    - intros H. apply (f_equal req_url) in H. cbn [req_url] in H.
      change (lit "/alerts/statistics") with (lit "/alerts/" ++ lit "statistics") in H.
      by apply app_inv_head in H.
    - by intros ->. }
  split; [exact Hiff|].
  intros n -> H. apply Hiff in H.
  destruct (ToString_number_head n) as (d & rest & Hd & Hdigit).
  rewrite Hd in H. vm_compute in H. injection H as Hhead _. lia.
Qed.

Lemma getAlert_meets_getStats_witness :
  alertService.getAlert (JStr (lit "statistics")) = alertService.getStats ∧
  alertService.getAlert (JNum 12) ≠ alertService.getStats.
Proof.
  split.
  - by apply (getAlert_meets_getStats (JStr (lit "statistics"))).
  - by apply (getAlert_meets_getStats (JNum 12)) with (n := 12%Z).
Defined.

End Urls.
